(** * Validator-set governance of the IBFT Proof-of-Authority mechanism

    A shallow embedding of [consensus/ibft/poa.go] (the header-processing
    hook of the PoA mechanism) and of [secrets/secrets.go] (the list of
    supported secrets managers), with the properties the specification
    states about them. *)

From Stdlib Require Import ZArith List Bool Lia String Permutation.
Import ListNotations.
Local Open Scope Z_scope.

(** ** Machine integers

    [Header.Number] and [epochSize] are [uint64]; [epoch] is an [int], which
    is 64 bits wide on the platforms the node is built for.  Values are
    kept in [Z]; a conversion or an operation that can leave the range of
    its type is followed by the reduction Go performs. *)
Module GoInt.

Definition uint64_modulus : Z := 2 ^ 64.
Definition int_min : Z := - 2 ^ 63.

(** The value of type [uint64] congruent to [z] modulo 2^64. *)
Definition to_uint64 (z : Z) : Z := z mod uint64_modulus.

(** The value of type [int] congruent to [z] modulo 2^64. *)
Definition to_int (z : Z) : Z :=
  (z - int_min) mod uint64_modulus + int_min.

(** [a - b] on [int]. *)
Definition int_sub (a b : Z) : Z := to_int (a - b).

(** [a * b] on [uint64]. *)
Definition uint64_mul (a b : Z) : Z := to_uint64 (a * b).

(** [a / b] on non-negative [int]s, [b] not zero: truncated division. *)
Definition int_div (a b : Z) : Z := Z.quot a b.

End GoInt.

(** ** Package [types]: addresses, nonces, headers *)
Module types.

(** [Address] is [[20]byte]; it is read as a 160-bit number, so that
    array equality is equality of numbers. *)
Definition Address : Type := Z.

(** [Nonce] is [[8]byte], read as a 64-bit number. *)
Definition Nonce : Type := Z.

(** The fields of [types.Header] the hook reads.  The field the source
    calls [Nonce] is [HNonce] here, the name [Nonce] being the type. *)
Record Header : Type := mkHeader {
  Number : Z;
  Miner : Address;
  HNonce : Nonce
}.

End types.

(** ** Package [secrets] *)
Module secrets.

Local Open Scope string_scope.

Definition SecretsManagerType : Type := string.

(** [Local] pertains to the local FS. *)
Definition Local : SecretsManagerType := "local".

(** [HashicorpVault] pertains to the Hashicorp Vault server. *)
Definition HashicorpVault : SecretsManagerType := "hashicorp-vault".

(** [SupportedServiceManager] checks if the passed in service manager type
    is supported. *)
Definition SupportedServiceManager (service : SecretsManagerType) : bool :=
  String.eqb service HashicorpVault || String.eqb service Local.

End secrets.

(** ** Package [ibft]: snapshots *)
Module ibft.

(** Modelled from the spec: the type [ValidatorSet] and its methods
    [Includes], [Add], [Del] and [Len] are declared in another file of
    the package.  Section 4.1: an ordered container of unique addresses;
    [add] inserts if absent and is a no-op if present, new entries last;
    [remove] removes if present and keeps the order of the others. *)
Definition ValidatorSet : Type := list types.Address.

Definition Includes (addr : types.Address) (v : ValidatorSet) : bool :=
  existsb (fun a => a =? addr) v.

Definition Add (addr : types.Address) (v : ValidatorSet) : ValidatorSet :=
  if Includes addr v then v else v ++ [addr].

Definition Del (addr : types.Address) (v : ValidatorSet) : ValidatorSet :=
  filter (fun a => negb (a =? addr)) v.

Definition Len (v : ValidatorSet) : Z := Z.of_nat (List.length v).

(** Modelled from the spec: the struct [Vote] is declared in another
    file of the package; its three fields are those the hook reads and
    writes (section 3: voter, candidate, authorize). *)
Record Vote : Type := mkVote {
  Validator : types.Address;
  Address : types.Address;
  Authorize : bool
}.

(** Modelled from the spec: the struct [Snapshot] is declared in
    another file of the package (section 3: number, set, votes).  The
    field the source calls [Set] is [Set_] here. *)
Record Snapshot : Type := mkSnapshot {
  Number : Z;
  Votes : list Vote;
  Set_ : ValidatorSet
}.

Definition withVotes (vs : list Vote) (s : Snapshot) : Snapshot :=
  mkSnapshot (Number s) vs (Set_ s).

Definition withSet (v : ValidatorSet) (s : Snapshot) : Snapshot :=
  mkSnapshot (Number s) (Votes s) v.

(** Modelled from the spec: [Snapshot.Count] and [Snapshot.RemoveVotes]
    are declared in another file of the package.  Section 4.2:
    [countMatching] counts the votes satisfying a predicate; [removeVotes]
    drops all matching votes, preserving the relative order of
    survivors. *)
Definition Count (h : Vote -> bool) (s : Snapshot) : Z :=
  Z.of_nat (List.length (filter h (Votes s))).

Definition RemoveVotes (h : Vote -> bool) (s : Snapshot) : Snapshot :=
  withVotes (filter (fun v => negb (h v)) (Votes s)) s.

(** *** What the hook does to its surroundings

    [saveSnap] is a callback of the caller and [deleteLower] a method of
    the snapshot store; both are outside the hook.  A call is recorded,
    in order, with its argument; [SaveSnap] also records the working
    snapshot as the callback finds it. *)
Inductive Call : Type :=
| SaveSnap (h : types.Header) (seen : Snapshot)
| DeleteLower (purgeBlock : Z).

(** The state the hook works on: the working snapshot [params.snap] and
    the calls made so far. *)
Record HookState : Type := mkState {
  snap : Snapshot;
  calls : list Call
}.

Definition withSnap (s : Snapshot) (st : HookState) : HookState :=
  mkState s (calls st).

Definition call (c : Call) (st : HookState) : HookState :=
  mkState (snap st) (calls st ++ [c]).

(** The two errors the hook builds with [fmt.Errorf]. *)
Inductive HookError : Type :=
| ErrIncorrectVoteNonce      (* "incorrect vote nonce" *)
| ErrMoreThanOneProposal.    (* "more than one proposal per validator per address found" *)

(** How an invocation ends: it returns an [error] ([None] is [nil]) and
    leaves a state, or it panics (a remainder by zero). *)
Inductive Outcome : Type :=
| Return (err : option HookError) (st : HookState)
| Panic.

Section PoA.

(** [poa.ibft.epochSize], the package variables [nonceAuthVote] and
    [nonceDropVote], and [types.ZeroAddress]: their values are set
    in other files, so they are taken as given. *)
Variable epochSize : Z.
Variables nonceAuthVote nonceDropVote : types.Nonce.
Variable ZeroAddress : types.Address.

(** Lines 82-95: the checkpoint block.  [number] and [epochSize] are
    unsigned, so [/] is the quotient of the naturals. *)
Definition checkpoint (h : types.Header) (st : HookState) : HookState :=
  let number := types.Number h in
  let st := withSnap (withVotes [] (snap st)) st in
  let st := call (SaveSnap h (snap st)) st in
  let epoch := GoInt.int_sub (GoInt.to_int (number / epochSize)) 2 in
  if epoch >? 0 then
    let purgeBlock := GoInt.uint64_mul (GoInt.to_uint64 epoch) epochSize in
    call (DeleteLower purgeBlock) st
  else st.

(** Lines 102-111: the nonce selects the action; [None] is the
    [default] case. *)
Definition selectAction (h : types.Header) : option bool :=
  if types.HNonce h =? nonceAuthVote then Some true
  else if types.HNonce h =? nonceDropVote then Some false
  else None.

(** Lines 113-124: the vote asks for what already holds. *)
Definition alreadySatisfied (authorize : bool) (h : types.Header)
    (s : Snapshot) : bool :=
  if authorize then Includes (types.Miner h) (Set_ s)
  else negb (Includes (types.Miner h) (Set_ s)).

(** The predicates of the three closures. *)
Definition sameProposal (proposer : types.Address) (h : types.Header)
    (v : Vote) : bool :=
  (Validator v =? proposer) && (Address v =? types.Miner h).

Definition names (h : types.Header) (v : Vote) : bool :=
  Address v =? types.Miner h.

Definition castBy (h : types.Header) (v : Vote) : bool :=
  Validator v =? types.Miner h.

(** Lines 126-141: the proposer's vote is cast unless it is there. *)
Definition castVote (authorize : bool) (h : types.Header)
    (proposer : types.Address) (s : Snapshot) : HookError + Snapshot :=
  let voteCount := Count (sameProposal proposer h) s in
  if voteCount >? 1 then inl ErrMoreThanOneProposal
  else if voteCount =? 0 then
    inr (withVotes
           (Votes s ++ [mkVote proposer (types.Miner h) authorize]) s)
  else inr s.

(** Lines 143-167: the tally for the proposed validator. *)
Definition applyTally (authorize : bool) (h : types.Header)
    (s : Snapshot) : Snapshot :=
  let tally := Count (names h) s in
  if tally >? GoInt.int_div (Len (Set_ s)) 2 then
    let s :=
      if authorize then withSet (Add (types.Miner h) (Set_ s)) s
      else RemoveVotes (castBy h)
             (withSet (Del (types.Miner h) (Set_ s)) s) in
    RemoveVotes (names h) s
  else s.

(** [processHeadersHook] does the required logic for PoA header
    processing. *)
Definition processHeadersHook (h : types.Header)
    (proposer : types.Address) (st : HookState) : Outcome :=
  let number := types.Number h in
  if epochSize =? 0 then Panic
  else if number mod epochSize =? 0 then Return None (checkpoint h st)
  else if types.Miner h =? ZeroAddress then Return None st
  else
    match selectAction h with
    | None => Return (Some ErrIncorrectVoteNonce) st
    | Some authorize =>
        if alreadySatisfied authorize h (snap st) then Return None st
        else
          match castVote authorize h proposer (snap st) with
          | inl e => Return (Some e) st
          | inr s => Return None (withSnap (applyTally authorize h s) st)
          end
    end.

(** The states the hook can leave when it returns success: after the
    checkpoint block, after one of the three early returns, after the
    tally. *)
Inductive Success (h : types.Header) (proposer : types.Address)
    (st : HookState) : HookState -> Prop :=
| AtCheckpoint :
    Success h proposer st (checkpoint h st)
| NothingToDo :
    Success h proposer st st
| VoteTallied (authorize : bool) (cast : Snapshot) :
    castVote authorize h proposer (snap st) = inr cast ->
    Success h proposer st
      (withSnap (applyTally authorize h cast) st).

(** The error [verifyHeadersHook] builds with [fmt.Errorf]. *)
Inductive VerifyError : Type :=
| ErrInvalidNonce.    (* "invalid nonce" *)

(** [verifyHeadersHook] verifies that the header nonce conforms to the
    IBFT PoA proposal format (lines 52-65); [None] is [nil]. *)
Definition verifyHeadersHook (nonce : types.Nonce) : option VerifyError :=
  if negb (nonce =? nonceDropVote) && negb (nonce =? nonceAuthVote)
  then Some ErrInvalidNonce
  else None.

End PoA.

(** *** The mechanism and its hook map *)

(** The three methods [initializeHookMap] registers, each a method value
    bound to the mechanism. *)
Inductive HookMethod : Type :=
| acceptStateLogHook
| verifyHeadersHookMethod
| processHeadersHookMethod.

(** [map[string]func(interface{}) error]: a name is bound to a method or
    to none.  [makeHookMap] is [make(map...)], [setHook name f m] is
    [m[name] = f], and [m name] is the lookup. *)
Definition HookMap : Type := string -> option HookMethod.

Definition makeHookMap : HookMap := fun _ => None.

Definition setHook (name : string) (f : HookMethod) (m : HookMap) : HookMap :=
  fun key => if String.eqb key name then Some f else m key.

(** The fields of [Ibft] the hooks reach through [poa.ibft]; the logger
    and the store are the surroundings of the hooks. *)
Record Ibft : Type := mkIbft {
  epochSize : Z
}.

(** [PoAMechanism]; [ibft] is a pointer, [None] when it is [nil]. *)
Record PoAMechanism : Type := mkPoAMechanism {
  ibft : option Ibft;
  hookMap : HookMap;
  mechanismType : string
}.

Section Mechanism.

(** The hook names and the mechanism type [PoA] are constants of the
    package declared in another file, so they are taken as given. *)
Variables AcceptStateLogHook VerifyHeadersHook ProcessHeadersHook : string.
Variable PoA : string.

(** [initializeHookMap] registers the hooks that the PoA mechanism should
    have (lines 174-186). *)
Definition initializeHookMap (poa : PoAMechanism) : PoAMechanism :=
  let m := makeHookMap in
  let m := setHook AcceptStateLogHook acceptStateLogHook m in
  let m := setHook VerifyHeadersHook verifyHeadersHookMethod m in
  let m := setHook ProcessHeadersHook processHeadersHookMethod m in
  mkPoAMechanism (ibft poa) m (mechanismType poa).

(** [PoAFactory] initializes the required data for the Proof of Authority
    mechanism (lines 23-32); the error it returns is always [nil]. *)
Definition PoAFactory : PoAMechanism :=
  initializeHookMap (mkPoAMechanism None makeHookMap PoA).

(** [GetType] and [GetHookMap] implement the [ConsensusMechanism]
    interface (lines 189-196). *)
Definition GetType (poa : PoAMechanism) : string := mechanismType poa.

Definition GetHookMap (poa : PoAMechanism) : HookMap := hookMap poa.

End Mechanism.

End ibft.

(** ** The wording of the specification

    The invariants of section 8 and the checkpoint branch as section 4.3
    words it, to be compared with the hook. *)
Module spec.

(** Vote uniqueness: for every pair of a voter and a candidate, at most one
    vote of the snapshot has that voter and that candidate. *)
Definition voteUniqueness (s : ibft.Snapshot) : Prop :=
  forall voter candidate : types.Address,
    ibft.Count
      (fun v => (ibft.Validator v =? voter) && (ibft.Address v =? candidate))
      s <= 1.

(** Voter membership: the voter of every vote is in the validator set. *)
Definition voterMembership (s : ibft.Snapshot) : Prop :=
  forall v : ibft.Vote,
    In v (ibft.Votes s) ->
    ibft.Includes (ibft.Validator v) (ibft.Set_ s) = true.

(** The checkpoint branch in the words of the specification: clear the
    votes, invoke [saveSnap], then with [epoch = number / epochSize - 2],
    the numbers being the integers, ask for [deleteLower (epoch * epochSize)]
    if [epoch > 0]. *)
Definition checkpointInWords (epochSize : Z) (h : types.Header)
    (st : ibft.HookState) : ibft.HookState :=
  let cleared := ibft.withVotes [] (ibft.snap st) in
  let saved := ibft.call (ibft.SaveSnap h cleared) (ibft.withSnap cleared st) in
  let epoch := types.Number h / epochSize - 2 in
  if epoch >? 0 then ibft.call (ibft.DeleteLower (epoch * epochSize)) saved
  else saved.

End spec.

(** ** The setting of the scenarios

    Section 8 of the specification: [epochSize = 10], validators [A], [B]
    and [C], a candidate [D].  The two nonces and the zero address are
    sample values. *)
Module scenario.

Definition epochSize : Z := 10.
Definition nonceAuthVote : types.Nonce := 0xffffffffffffffff.
Definition nonceDropVote : types.Nonce := 0.
Definition ZeroAddress : types.Address := 0.

Definition A : types.Address := 1.
Definition B : types.Address := 2.
Definition C : types.Address := 3.
Definition D : types.Address := 4.

(** An address that is no validator. *)
Definition stranger : types.Address := 9.

Definition hook : types.Header -> types.Address -> ibft.HookState ->
    ibft.Outcome :=
  ibft.processHeadersHook epochSize nonceAuthVote nonceDropVote ZeroAddress.

(** A working snapshot with no call made yet. *)
Definition state (set : ibft.ValidatorSet) (votes : list ibft.Vote) :
    ibft.HookState :=
  ibft.mkState (ibft.mkSnapshot 0 votes set) [].


Definition vote (voter candidate : types.Address) (authorize : bool) :
    ibft.Vote :=
  ibft.mkVote voter candidate authorize.

(** The headers of the scenarios. *)
Definition S1 : types.Header := types.mkHeader 3 D nonceAuthVote.
Definition S2 : types.Header := types.mkHeader 4 D nonceAuthVote.
Definition S6 : types.Header := types.mkHeader 30 D nonceAuthVote.
Definition badNonce : types.Header := types.mkHeader 3 D 0xDEADBEEFDEADBEEF.
Definition reAuthorize : types.Header := types.mkHeader 3 A nonceAuthVote.

End scenario.

(** * Properties *)

(** ** Supported secrets managers *)

(** C10: [SupportedServiceManager] answers [true] exactly for the types
    [Local] ("local") and [HashicorpVault] ("hashicorp-vault"), and [false]
    for every other value. *)
Theorem SupportedServiceManager_spec :
  forall service : secrets.SecretsManagerType,
    (secrets.SupportedServiceManager service = true <->
       service = "local"%string \/ service = "hashicorp-vault"%string) /\
    (service <> "local"%string -> service <> "hashicorp-vault"%string ->
       secrets.SupportedServiceManager service = false).
Proof.
  intro service. unfold secrets.SupportedServiceManager,
    secrets.HashicorpVault, secrets.Local.
  destruct (String.eqb_spec service "hashicorp-vault") as [Hv | Hv];
    destruct (String.eqb_spec service "local") as [Hl | Hl];
    cbn [orb]; split; try tauto; try (split; [tauto | discriminate 1 || tauto]).
  all: try (split; [discriminate | intros [?|?]; contradiction]).
Qed.

(** ** The header-processing hook *)

(** *** Lists of votes and validator sets *)

Lemma filter_twice (A : Type) (p q : A -> bool) (l : list A) :
  filter q (filter p l) = filter (fun x => p x && q x) l.
Proof.
  induction l as [| x l IH]; [reflexivity |].
  cbn [filter]. destruct (p x); cbn [filter andb]; [| exact IH].
  destruct (q x); [f_equal |]; exact IH.
Qed.

Lemma filter_shorter (A : Type) (p : A -> bool) (l : list A) :
  (List.length (filter p l) <= List.length l)%nat.
Proof.
  induction l as [| x l IH]; cbn [filter]; [apply le_n |].
  destruct (p x); cbn [List.length]; lia.
Qed.

Lemma filter_keeps_all (A : Type) (p : A -> bool) (l : list A) :
  filter p l = l -> forall x, In x l -> p x = true.
Proof.
  induction l as [| y l IH]; intros Heq x Hin; [destruct Hin |].
  cbn [filter] in Heq. destruct (p y) eqn:Hy.
  - injection Heq as Heq. destruct Hin as [<- | Hin]; [exact Hy | exact (IH Heq x Hin)].
  - exfalso. pose proof (filter_shorter A p l) as Hlen.
    rewrite Heq in Hlen. cbn [List.length] in Hlen. lia.
Qed.

Lemma Includes_In (a : types.Address) (v : ibft.ValidatorSet) :
  ibft.Includes a v = true <-> In a v.
Proof.
  unfold ibft.Includes. rewrite existsb_exists. split.
  - intros [x [Hin Heq]]. apply Z.eqb_eq in Heq. subst x. exact Hin.
  - intro Hin. exists a. split; [exact Hin | apply Z.eqb_refl].
Qed.

Lemma Includes_Add (a b : types.Address) (v : ibft.ValidatorSet) :
  ibft.Includes a (ibft.Add b v) = (a =? b) || ibft.Includes a v.
Proof.
  unfold ibft.Add. destruct (ibft.Includes b v) eqn:Hb.
  - destruct (Z.eqb_spec a b) as [-> | _]; [| reflexivity].
    rewrite Hb. reflexivity.
  - unfold ibft.Includes. rewrite existsb_app. cbn [existsb].
    rewrite orb_false_r, orb_comm, (Z.eqb_sym b a). reflexivity.
Qed.

Lemma Includes_Del (a b : types.Address) (v : ibft.ValidatorSet) :
  ibft.Includes a (ibft.Del b v) = negb (a =? b) && ibft.Includes a v.
Proof.
  unfold ibft.Del, ibft.Includes.
  induction v as [| x v IH]; [now rewrite andb_false_r |].
  cbn [filter existsb].
  destruct (Z.eqb_spec x b) as [-> | Hxb]; cbn [negb existsb]; rewrite IH.
  - rewrite (Z.eqb_sym b a). now destruct (a =? b).
  - destruct (Z.eqb_spec x a) as [-> | Hxa]; cbn [orb]; [| reflexivity].
    destruct (Z.eqb_spec a b) as [-> | _]; [contradiction | reflexivity].
Qed.

Lemma Add_changes (a : types.Address) (v : ibft.ValidatorSet) :
  ibft.Includes a v = false -> ibft.Add a v <> v.
Proof.
  intros Hout Heq. unfold ibft.Add in Heq. rewrite Hout in Heq.
  apply (f_equal (@List.length _)) in Heq.
  rewrite length_app in Heq. cbn [List.length] in Heq. lia.
Qed.

Lemma Del_changes (a : types.Address) (v : ibft.ValidatorSet) :
  ibft.Includes a v = true -> ibft.Del a v <> v.
Proof.
  intros Hin Heq. apply Includes_In in Hin.
  pose proof (filter_keeps_all _ _ _ Heq a Hin) as Ha. cbn beta in Ha.
  rewrite Z.eqb_refl in Ha. discriminate Ha.
Qed.

Lemma int_div_half (n : Z) : 0 <= n -> GoInt.int_div n 2 = n / 2.
Proof.
  intro Hn. unfold GoInt.int_div. apply Z.quot_div_nonneg; lia.
Qed.

(** *** The decision tree of the hook *)

Section Governance.

Variable epochSize : Z.
Variables nonceAuthVote nonceDropVote : types.Nonce.
Variable ZeroAddress : types.Address.

Local Abbreviation processHeadersHook :=
  (ibft.processHeadersHook epochSize nonceAuthVote nonceDropVote ZeroAddress).
Local Abbreviation selectAction :=
  (ibft.selectAction nonceAuthVote nonceDropVote).

(** A header that is not a checkpoint and names a candidate reaches the
    [switch] on the nonce. *)
Lemma hook_vote_branch (h : types.Header) (proposer : types.Address)
    (st : ibft.HookState) :
  epochSize <> 0 ->
  types.Number h mod epochSize <> 0 ->
  types.Miner h <> ZeroAddress ->
  processHeadersHook h proposer st =
    match selectAction h with
    | None => ibft.Return (Some ibft.ErrIncorrectVoteNonce) st
    | Some authorize =>
        if ibft.alreadySatisfied authorize h (ibft.snap st)
        then ibft.Return None st
        else
          match ibft.castVote authorize h proposer (ibft.snap st) with
          | inl e => ibft.Return (Some e) st
          | inr s =>
              ibft.Return None (ibft.withSnap (ibft.applyTally authorize h s) st)
          end
    end.
Proof.
  intros He Hn Hm. unfold ibft.processHeadersHook.
  destruct (Z.eqb_spec epochSize 0) as [E | _]; [contradiction |].
  destruct (Z.eqb_spec (types.Number h mod epochSize) 0) as [E | _];
    [contradiction |].
  destruct (Z.eqb_spec (types.Miner h) ZeroAddress) as [E | _];
    [contradiction | reflexivity].
Qed.

Lemma selectAction_None (h : types.Header) :
  selectAction h = None <->
  types.HNonce h <> nonceAuthVote /\ types.HNonce h <> nonceDropVote.
Proof.
  unfold ibft.selectAction.
  destruct (Z.eqb_spec (types.HNonce h) nonceAuthVote) as [Ea | Ea].
  - split; [discriminate | tauto].
  - destruct (Z.eqb_spec (types.HNonce h) nonceDropVote) as [Ed | Ed].
    + split; [discriminate | tauto].
    + split; [intros _; split; assumption | reflexivity].
Qed.

Lemma castVote_error (authorize : bool) (h : types.Header)
    (proposer : types.Address) (s : ibft.Snapshot) (e : ibft.HookError) :
  ibft.castVote authorize h proposer s = inl e ->
  e = ibft.ErrMoreThanOneProposal.
Proof.
  unfold ibft.castVote.
  destruct (ibft.Count (ibft.sameProposal proposer h) s >? 1);
    [intro H; injection H as <-; reflexivity |].
  destruct (ibft.Count (ibft.sameProposal proposer h) s =? 0); discriminate.
Qed.

(** C4: on a header that is not a checkpoint, the hook fails with the
    incorrect-vote-nonce error exactly when the miner is not the zero
    address and the nonce is neither of the two vote nonces; with the zero
    address as miner it returns success, whatever the nonce, and leaves the
    state as it found it. *)
Theorem processHeadersHook_nonce
    (h : types.Header) (proposer : types.Address) (st : ibft.HookState) :
  epochSize <> 0 ->
  types.Number h mod epochSize <> 0 ->
  ((exists st', processHeadersHook h proposer st =
                  ibft.Return (Some ibft.ErrIncorrectVoteNonce) st') <->
   (types.Miner h <> ZeroAddress /\
    types.HNonce h <> nonceAuthVote /\ types.HNonce h <> nonceDropVote)) /\
  (types.Miner h = ZeroAddress ->
   processHeadersHook h proposer st = ibft.Return None st).
Proof.
  intros He Hn. split.
  - destruct (Z.eq_dec (types.Miner h) ZeroAddress) as [Hz | Hz].
    + unfold ibft.processHeadersHook.
      destruct (Z.eqb_spec epochSize 0) as [E | _]; [contradiction |].
      destruct (Z.eqb_spec (types.Number h mod epochSize) 0) as [E | _];
        [contradiction |].
      rewrite Hz, Z.eqb_refl. split.
      * intros [st' H]; discriminate H.
      * intros [H _]. contradiction.
    + rewrite (hook_vote_branch h proposer st He Hn Hz).
      destruct (selectAction h) as [authorize |] eqn:Hsel.
      * split.
        -- intros [st' H].
           destruct (ibft.alreadySatisfied authorize h (ibft.snap st));
             [discriminate H |].
           destruct (ibft.castVote authorize h proposer (ibft.snap st))
             as [e | s] eqn:Hc; [| discriminate H].
           apply castVote_error in Hc. subst e. discriminate H.
        -- intros [_ Hbad]. apply selectAction_None in Hbad.
           rewrite Hbad in Hsel. discriminate Hsel.
      * split.
        -- intros _. split; [exact Hz | now apply selectAction_None].
        -- intros _. exists st. reflexivity.
  - intro Hz. unfold ibft.processHeadersHook.
    destruct (Z.eqb_spec epochSize 0) as [E | _]; [contradiction |].
    destruct (Z.eqb_spec (types.Number h mod epochSize) 0) as [E | _];
      [contradiction |].
    rewrite Hz, Z.eqb_refl. reflexivity.
Qed.

(** C6: on a vote header (not a checkpoint, a miner other than the zero
    address, one of the two vote nonces), a vote to authorize a miner that
    is in the validator set, and a vote to drop a miner that is not in it,
    return success and leave validator set, votes and calls as they were. *)
Theorem processHeadersHook_already_satisfied
    (h : types.Header) (proposer : types.Address) (st : ibft.HookState) :
  epochSize <> 0 ->
  nonceAuthVote <> nonceDropVote ->
  types.Number h mod epochSize <> 0 ->
  types.Miner h <> ZeroAddress ->
  (types.HNonce h = nonceAuthVote /\
   ibft.Includes (types.Miner h) (ibft.Set_ (ibft.snap st)) = true) \/
  (types.HNonce h = nonceDropVote /\
   ibft.Includes (types.Miner h) (ibft.Set_ (ibft.snap st)) = false) ->
  processHeadersHook h proposer st = ibft.Return None st.
Proof.
  intros He Hdist Hn Hm Hcase.
  rewrite (hook_vote_branch h proposer st He Hn Hm).
  unfold ibft.selectAction, ibft.alreadySatisfied.
  destruct Hcase as [[Hnonce Hin] | [Hnonce Hout]]; rewrite Hnonce.
  - rewrite Z.eqb_refl, Hin. reflexivity.
  - destruct (Z.eqb_spec nonceDropVote nonceAuthVote) as [E | _];
      [symmetry in E; contradiction |].
    rewrite Z.eqb_refl, Hout. reflexivity.
Qed.

(** C9: when the hook returns an error, be it the incorrect-vote-nonce or
    the more-than-one-proposal error, the state it leaves is the state it
    found: same validator set, same votes, and no call to [saveSnap] or
    [deleteLower] was made. *)
Theorem processHeadersHook_error_no_change
    (h : types.Header) (proposer : types.Address)
    (st st' : ibft.HookState) (e : ibft.HookError) :
  processHeadersHook h proposer st = ibft.Return (Some e) st' ->
  st' = st /\
  ibft.Set_ (ibft.snap st') = ibft.Set_ (ibft.snap st) /\
  ibft.Votes (ibft.snap st') = ibft.Votes (ibft.snap st) /\
  ibft.calls st' = ibft.calls st.
Proof.
  intro H. assert (Hst : st' = st); [| subst st'; repeat split; reflexivity].
  unfold ibft.processHeadersHook in H.
  destruct (epochSize =? 0); [discriminate H |].
  destruct (types.Number h mod epochSize =? 0); [discriminate H |].
  destruct (types.Miner h =? ZeroAddress); [discriminate H |].
  destruct (selectAction h) as [authorize |].
  - destruct (ibft.alreadySatisfied authorize h (ibft.snap st));
      [discriminate H |].
    destruct (ibft.castVote authorize h proposer (ibft.snap st));
      [| discriminate H].
    injection H as _ H. symmetry. exact H.
  - injection H as _ H. symmetry. exact H.
Qed.

(** *** Casting the vote *)

Lemma castVote_cases (authorize : bool) (h : types.Header)
    (proposer : types.Address) (s : ibft.Snapshot) :
  let c := ibft.Count (ibft.sameProposal proposer h) s in
  (c > 1 /\
   ibft.castVote authorize h proposer s = inl ibft.ErrMoreThanOneProposal) \/
  (c = 0 /\
   ibft.castVote authorize h proposer s =
     inr (ibft.withVotes
            (ibft.Votes s ++ [ibft.mkVote proposer (types.Miner h) authorize])
            s)) \/
  (c = 1 /\ ibft.castVote authorize h proposer s = inr s).
Proof.
  intro c. unfold ibft.castVote. fold c.
  assert (Hc : 0 <= c) by (unfold c, ibft.Count; lia).
  destruct (Z.gtb_spec c 1) as [Hgt | Hle]; [left; split; [lia | reflexivity] |].
  right. destruct (Z.eqb_spec c 0) as [H0 | H0].
  - left. split; [exact H0 | reflexivity].
  - right. split; [lia | reflexivity].
Qed.

(** C5: on a vote header that is past the guard against votes already
    satisfied, let [c] count the pending votes of the proposer for the
    miner.  With [c > 1] the hook fails with the more-than-one-proposal
    error; with [c = 0] one vote, of the proposer for the miner in the
    direction of the nonce, is appended to the votes before the tally; with
    [c = 1] nothing is appended and the tally runs on the votes as they
    stand. *)
Theorem processHeadersHook_cast_vote
    (h : types.Header) (proposer : types.Address) (st : ibft.HookState)
    (authorize : bool) :
  epochSize <> 0 ->
  types.Number h mod epochSize <> 0 ->
  types.Miner h <> ZeroAddress ->
  selectAction h = Some authorize ->
  ibft.alreadySatisfied authorize h (ibft.snap st) = false ->
  let c :=
    ibft.Count
      (fun v => (ibft.Validator v =? proposer) &&
                (ibft.Address v =? types.Miner h))
      (ibft.snap st) in
  let vote := ibft.mkVote proposer (types.Miner h) authorize in
  let appended :=
    ibft.withVotes (ibft.Votes (ibft.snap st) ++ [vote]) (ibft.snap st) in
  (c > 1 ->
   processHeadersHook h proposer st =
     ibft.Return (Some ibft.ErrMoreThanOneProposal) st) /\
  (c = 0 ->
   ibft.castVote authorize h proposer (ibft.snap st) = inr appended /\
   List.length (ibft.Votes appended) =
     S (List.length (ibft.Votes (ibft.snap st))) /\
   processHeadersHook h proposer st =
     ibft.Return None
       (ibft.withSnap (ibft.applyTally authorize h appended) st)) /\
  (c = 1 ->
   ibft.castVote authorize h proposer (ibft.snap st) = inr (ibft.snap st) /\
   processHeadersHook h proposer st =
     ibft.Return None
       (ibft.withSnap (ibft.applyTally authorize h (ibft.snap st)) st)).
Proof.
  intros He Hn Hm Hsel Hguard c vote appended.
  rewrite (hook_vote_branch h proposer st He Hn Hm), Hsel, Hguard.
  change c with (ibft.Count (ibft.sameProposal proposer h) (ibft.snap st)).
  destruct (castVote_cases authorize h proposer (ibft.snap st))
    as [[Hc Hcast] | [[Hc Hcast] | [Hc Hcast]]];
    fold vote in Hcast; fold appended in Hcast; rewrite Hcast.
  - repeat split; intros; try lia; reflexivity.
  - repeat split; intros; try lia; try reflexivity.
    unfold appended, ibft.withVotes. cbn [ibft.Votes].
    rewrite length_app. cbn [List.length]. lia.
  - repeat split; intros; try lia; reflexivity.
Qed.

(** *** The tally *)

Lemma length_filter_split (A : Type) (p q : A -> bool) (l : list A) :
  List.length (filter p l) =
  (List.length (filter (fun x => p x && q x) l) +
   List.length (filter (fun x => p x && negb (q x)) l))%nat.
Proof.
  induction l as [| x l IH]; [reflexivity |].
  cbn [filter]. destruct (p x), (q x); cbn [andb negb List.length]; lia.
Qed.

Lemma applyTally_majority (authorize : bool) (h : types.Header)
    (s : ibft.Snapshot) :
  ibft.Count (ibft.names h) s > ibft.Len (ibft.Set_ s) / 2 ->
  ibft.applyTally authorize h s =
    ibft.mkSnapshot (ibft.Number s)
      (filter
         (fun v => negb ((ibft.Address v =? types.Miner h) ||
                         (negb authorize &&
                          (ibft.Validator v =? types.Miner h))))
         (ibft.Votes s))
      (if authorize then ibft.Add (types.Miner h) (ibft.Set_ s)
       else ibft.Del (types.Miner h) (ibft.Set_ s)).
Proof.
  intro Hmaj. unfold ibft.applyTally.
  rewrite int_div_half by (unfold ibft.Len; lia).
  destruct (Z.gtb_spec (ibft.Count (ibft.names h) s)
              (ibft.Len (ibft.Set_ s) / 2)) as [_ | Hle]; [| lia].
  destruct authorize; unfold ibft.RemoveVotes, ibft.withVotes, ibft.withSet;
    cbn [ibft.Votes ibft.Set_ ibft.Number negb andb]; f_equal.
  - apply filter_ext. intro v. unfold ibft.names.
    now rewrite orb_false_r.
  - rewrite filter_twice. apply filter_ext. intro v.
    unfold ibft.names, ibft.castBy.
    now destruct (ibft.Address v =? types.Miner h),
                 (ibft.Validator v =? types.Miner h).
Qed.

Lemma applyTally_minority (authorize : bool) (h : types.Header)
    (s : ibft.Snapshot) :
  ibft.Count (ibft.names h) s <= ibft.Len (ibft.Set_ s) / 2 ->
  ibft.applyTally authorize h s = s.
Proof.
  intro Hmin. unfold ibft.applyTally.
  rewrite int_div_half by (unfold ibft.Len; lia).
  destruct (Z.gtb_spec (ibft.Count (ibft.names h) s)
              (ibft.Len (ibft.Set_ s) / 2)) as [Hgt | _]; [lia | reflexivity].
Qed.

(** C1: on a vote header past the guard against votes already satisfied and
    the guard against duplicates, [tally] is the number of pending votes,
    the vote just cast among them, whose candidate is the miner, votes to
    authorize and votes to drop counted together.  The validator set
    changes exactly when [tally] exceeds half the size the set has at that
    moment (integer division).  Then, at once: to authorize, the miner is
    added to the set; to drop, the miner is removed from it and the votes
    the miner cast are purged; either way the votes naming the miner are
    purged.  Otherwise the set and the pending votes stay. *)
Theorem processHeadersHook_tally
    (h : types.Header) (proposer : types.Address) (st : ibft.HookState)
    (authorize : bool) :
  epochSize <> 0 ->
  types.Number h mod epochSize <> 0 ->
  types.Miner h <> ZeroAddress ->
  selectAction h = Some authorize ->
  ibft.alreadySatisfied authorize h (ibft.snap st) = false ->
  ibft.Count
    (fun v => (ibft.Validator v =? proposer) &&
              (ibft.Address v =? types.Miner h))
    (ibft.snap st) <= 1 ->
  let miner := types.Miner h in
  let set := ibft.Set_ (ibft.snap st) in
  let pending :=
    if ibft.Count
         (fun v => (ibft.Validator v =? proposer) && (ibft.Address v =? miner))
         (ibft.snap st) =? 0
    then ibft.Votes (ibft.snap st) ++ [ibft.mkVote proposer miner authorize]
    else ibft.Votes (ibft.snap st) in
  let votesFor (direction : bool) :=
    Z.of_nat
      (List.length
         (filter
            (fun v => (ibft.Address v =? miner) &&
                      Bool.eqb (ibft.Authorize v) direction)
            pending)) in
  let tally :=
    Z.of_nat (List.length (filter (fun v => ibft.Address v =? miner) pending)) in
  exists st' : ibft.HookState,
    processHeadersHook h proposer st = ibft.Return None st' /\
    ibft.calls st' = ibft.calls st /\
    tally = votesFor true + votesFor false /\
    (ibft.Set_ (ibft.snap st') <> set <-> tally > ibft.Len set / 2) /\
    (tally > ibft.Len set / 2 ->
     ibft.Set_ (ibft.snap st') =
       (if authorize then ibft.Add miner set else ibft.Del miner set) /\
     ibft.Includes miner (ibft.Set_ (ibft.snap st')) = authorize /\
     ibft.Votes (ibft.snap st') =
       filter
         (fun v => negb ((ibft.Address v =? miner) ||
                         (negb authorize && (ibft.Validator v =? miner))))
         pending) /\
    (tally <= ibft.Len set / 2 ->
     ibft.Set_ (ibft.snap st') = set /\
     ibft.Votes (ibft.snap st') = pending).
Proof.
  intros He Hn Hm Hsel Hguard Hdup miner set pending votesFor tally.
  rewrite (hook_vote_branch h proposer st He Hn Hm), Hsel, Hguard.
  assert (Hin : ibft.Includes miner set = negb authorize).
  { unfold ibft.alreadySatisfied in Hguard. fold miner set in Hguard.
    destruct authorize; cbn [negb]; [exact Hguard |].
    now apply negb_false_iff. }
  assert (Hcast : ibft.castVote authorize h proposer (ibft.snap st) =
                  inr (ibft.withVotes pending (ibft.snap st))).
  { destruct (castVote_cases authorize h proposer (ibft.snap st))
      as [[Hc Hcast] | [[Hc Hcast] | [Hc Hcast]]];
      unfold ibft.sameProposal in Hc.
    - lia.
    - rewrite Hcast. unfold pending, miner. rewrite Hc. reflexivity.
    - rewrite Hcast. unfold pending, miner. rewrite Hc. cbn [Z.eqb].
      now destruct (ibft.snap st). }
  rewrite Hcast.
  set (cast := ibft.withVotes pending (ibft.snap st)).
  assert (Htally : ibft.Count (ibft.names h) cast = tally) by reflexivity.
  assert (Hset : ibft.Set_ cast = set) by reflexivity.
  eexists. split; [reflexivity |]. split; [reflexivity |].
  split.
  { unfold tally, votesFor.
    rewrite (length_filter_split _ _ ibft.Authorize pending).
    rewrite Nat2Z.inj_add. f_equal; do 2 f_equal;
      apply filter_ext; intro v; now destruct (ibft.Authorize v). }
  cbn [ibft.snap ibft.withSnap].
  destruct (Z_gt_le_dec tally (ibft.Len set / 2)) as [Hmaj | Hmin].
  - rewrite (applyTally_majority authorize h cast)
      by (rewrite Htally, Hset; exact Hmaj).
    cbn [ibft.Set_ ibft.Votes]. rewrite Hset. fold miner.
    assert (Hchg : (if authorize then ibft.Add miner set
                    else ibft.Del miner set) <> set).
    { destruct authorize; cbn [negb] in Hin.
      - now apply Add_changes.
      - now apply Del_changes. }
    split; [split; [intros _; exact Hmaj | intros _; exact Hchg] |].
    split; [| intro; lia].
    intros _. split; [reflexivity |]. split; [| reflexivity].
    destruct authorize.
    + rewrite Includes_Add, Z.eqb_refl. reflexivity.
    + rewrite Includes_Del, Z.eqb_refl. reflexivity.
  - rewrite (applyTally_minority authorize h cast)
      by (rewrite Htally, Hset; exact Hmin).
    rewrite Hset. cbn [ibft.Votes cast ibft.withVotes].
    split; [split; [intro Hne; now contradiction Hne | intro; lia] |].
    split; [intro; lia |]. intros _. split; reflexivity.
Qed.

(** *** The ways the hook succeeds *)

Lemma checkpoint_snap (h : types.Header) (st : ibft.HookState) :
  ibft.snap (ibft.checkpoint epochSize h st) =
  ibft.withVotes [] (ibft.snap st).
Proof.
  unfold ibft.checkpoint.
  destruct (GoInt.int_sub (GoInt.to_int (types.Number h / epochSize)) 2 >? 0);
    reflexivity.
Qed.

Lemma processHeadersHook_success (h : types.Header)
    (proposer : types.Address) (st st' : ibft.HookState) :
  processHeadersHook h proposer st = ibft.Return None st' ->
  ibft.Success epochSize h proposer st st'.
Proof.
  intro H. unfold ibft.processHeadersHook in H.
  destruct (epochSize =? 0); [discriminate H |].
  destruct (types.Number h mod epochSize =? 0);
    [injection H as <-; constructor |].
  destruct (types.Miner h =? ZeroAddress); [injection H as <-; constructor |].
  destruct (selectAction h) as [authorize |]; [| discriminate H].
  destruct (ibft.alreadySatisfied authorize h (ibft.snap st));
    [injection H as <-; constructor |].
  destruct (ibft.castVote authorize h proposer (ibft.snap st))
    as [e | cast] eqn:Hcast; [discriminate H |].
  injection H as <-. now apply ibft.VoteTallied.
Qed.

(** *** Invariants of the snapshot *)

Lemma length_filter_filter (A : Type) (p q : A -> bool) (l : list A) :
  (List.length (filter p (filter q l)) <= List.length (filter p l))%nat.
Proof.
  induction l as [| x l IH]; [apply le_n |].
  cbn [filter]. destruct (q x); cbn [filter];
    destruct (p x); cbn [List.length]; lia.
Qed.

Lemma applyTally_Count_le (authorize : bool) (h : types.Header)
    (s : ibft.Snapshot) (p : ibft.Vote -> bool) :
  ibft.Count p (ibft.applyTally authorize h s) <= ibft.Count p s.
Proof.
  destruct (Z_gt_le_dec (ibft.Count (ibft.names h) s)
              (ibft.Len (ibft.Set_ s) / 2)) as [Hmaj | Hmin].
  - rewrite (applyTally_majority authorize h s Hmaj).
    unfold ibft.Count. cbn [ibft.Votes].
    apply inj_le, length_filter_filter.
  - rewrite (applyTally_minority authorize h s Hmin). apply Z.le_refl.
Qed.

Lemma castVote_unique (authorize : bool) (h : types.Header)
    (proposer : types.Address) (s cast : ibft.Snapshot) :
  spec.voteUniqueness s ->
  ibft.castVote authorize h proposer s = inr cast ->
  spec.voteUniqueness cast.
Proof.
  intros Huniq Hcast.
  destruct (castVote_cases authorize h proposer s)
    as [[Hc E] | [[Hc E] | [Hc E]]]; rewrite E in Hcast;
    [discriminate Hcast | | injection Hcast as <-; exact Huniq].
  injection Hcast as <-. intros voter candidate.
  unfold ibft.Count, ibft.withVotes. cbn [ibft.Votes].
  rewrite filter_app, length_app, Nat2Z.inj_add.
  cbn [filter ibft.Validator ibft.Address].
  destruct (Z.eqb_spec proposer voter) as [-> | Hv];
    [destruct (Z.eqb_spec (types.Miner h) candidate) as [<- | Hcand] |];
    cbn [andb List.length].
  - unfold ibft.Count, ibft.sameProposal in Hc.
    change (Z.of_nat 1) with 1. lia.
  - specialize (Huniq voter candidate). unfold ibft.Count in Huniq.
    change (Z.of_nat 0) with 0. lia.
  - specialize (Huniq voter candidate). unfold ibft.Count in Huniq.
    change (Z.of_nat 0) with 0. lia.
Qed.

(** C7: vote uniqueness is kept by the hook.  If the snapshot the hook
    finds has, for every voter and candidate, at most one vote of that
    voter for that candidate, then so has the snapshot it leaves on
    success, whatever the header and the proposer. *)
Theorem processHeadersHook_vote_uniqueness
    (h : types.Header) (proposer : types.Address)
    (st st' : ibft.HookState) :
  spec.voteUniqueness (ibft.snap st) ->
  processHeadersHook h proposer st = ibft.Return None st' ->
  spec.voteUniqueness (ibft.snap st').
Proof.
  intros Huniq H. apply processHeadersHook_success in H.
  destruct H as [| | authorize cast Hcast].
  - rewrite checkpoint_snap. intros voter candidate. cbn. lia.
  - exact Huniq.
  - pose proof (castVote_unique _ _ _ _ _ Huniq Hcast) as Hcu.
    intros voter candidate. cbn [ibft.snap ibft.withSnap].
    eapply Z.le_trans; [apply applyTally_Count_le | apply Hcu].
Qed.

Lemma castVote_members (authorize : bool) (h : types.Header)
    (proposer : types.Address) (s cast : ibft.Snapshot) :
  spec.voterMembership s ->
  ibft.Includes proposer (ibft.Set_ s) = true ->
  ibft.castVote authorize h proposer s = inr cast ->
  spec.voterMembership cast.
Proof.
  intros Hmem Hprop Hcast.
  destruct (castVote_cases authorize h proposer s)
    as [[Hc E] | [[Hc E] | [Hc E]]]; rewrite E in Hcast;
    [discriminate Hcast | | injection Hcast as <-; exact Hmem].
  injection Hcast as <-. intros v Hin.
  unfold ibft.withVotes in Hin |- *. cbn [ibft.Votes ibft.Set_] in Hin |- *.
  apply in_app_or in Hin. destruct Hin as [Hin | [<- | []]].
  - exact (Hmem v Hin).
  - exact Hprop.
Qed.

Lemma applyTally_members (authorize : bool) (h : types.Header)
    (s : ibft.Snapshot) :
  spec.voterMembership s ->
  spec.voterMembership (ibft.applyTally authorize h s).
Proof.
  intro Hmem.
  destruct (Z_gt_le_dec (ibft.Count (ibft.names h) s)
              (ibft.Len (ibft.Set_ s) / 2)) as [Hmaj | Hmin].
  - rewrite (applyTally_majority authorize h s Hmaj).
    intros v Hin. cbn [ibft.Votes ibft.Set_] in Hin |- *.
    apply filter_In in Hin. destruct Hin as [Hin Hkept].
    specialize (Hmem v Hin). destruct authorize.
    + rewrite Includes_Add, Hmem. apply orb_true_r.
    + rewrite Includes_Del, Hmem. cbn [negb andb] in Hkept.
      apply negb_true_iff, orb_false_iff in Hkept.
      destruct Hkept as [_ Hkept]. rewrite Hkept. reflexivity.
  - rewrite (applyTally_minority authorize h s Hmin). exact Hmem.
Qed.

(** C3, as amended: voter membership is kept by the hook when the proposer
    is a validator.  If in the snapshot the hook finds every voter is in
    the validator set, and the proposer is in it too, then in the snapshot
    the hook leaves on success every voter is in the validator set. *)
Theorem processHeadersHook_voter_membership
    (h : types.Header) (proposer : types.Address)
    (st st' : ibft.HookState) :
  spec.voterMembership (ibft.snap st) ->
  ibft.Includes proposer (ibft.Set_ (ibft.snap st)) = true ->
  processHeadersHook h proposer st = ibft.Return None st' ->
  spec.voterMembership (ibft.snap st').
Proof.
  intros Hmem Hprop H. apply processHeadersHook_success in H.
  destruct H as [| | authorize cast Hcast].
  - rewrite checkpoint_snap. intros v [].
  - exact Hmem.
  - cbn [ibft.snap ibft.withSnap]. apply applyTally_members.
    exact (castVote_members _ _ _ _ _ Hmem Hprop Hcast).
Qed.

(** *** The checkpoint *)

Lemma epoch_value (q : Z) :
  0 <= q < 2 ^ 64 ->
  GoInt.int_sub (GoInt.to_int q) 2 =
    if q <? 2 ^ 63 + 2 then q - 2 else q - 2 - 2 ^ 64.
Proof.
  intro Hq. unfold GoInt.int_sub, GoInt.to_int, GoInt.uint64_modulus,
    GoInt.int_min.
  change (2 ^ 64) with 18446744073709551616 in *.
  change (2 ^ 63) with 9223372036854775808 in *.
  destruct (Z.ltb_spec q (9223372036854775808 + 2));
    Z.div_mod_to_equations; lia.
Qed.

Lemma purge_value (q e : Z) :
  0 < e -> 2 < q -> q * e < 2 ^ 64 ->
  GoInt.uint64_mul (GoInt.to_uint64 (q - 2)) e = (q - 2) * e.
Proof.
  intros He Hq Hb. unfold GoInt.uint64_mul, GoInt.to_uint64,
    GoInt.uint64_modulus.
  assert (0 <= (q - 2) * e < 2 ^ 64) by nia.
  assert (0 <= q - 2 < 2 ^ 64) by nia.
  rewrite (Z.mod_small (q - 2)) by assumption.
  apply Z.mod_small. assumption.
Qed.

(** The checkpoint block within the range of [int].  On a header whose
    number is a multiple of [epochSize] the hook clears the votes, calls
    [saveSnap] with the header, and returns success, whatever the miner
    and the nonce.  With [q = number / epochSize] below [2^63 + 2] the
    run is the checkpoint branch as the specification words it: a call of
    [deleteLower ((q - 2) * epochSize)] exactly when [q - 2 > 0].  From
    [q = 2^63 + 2] on, the conversion of [q] to [int] is negative and the
    call is missed. *)
Theorem processHeadersHook_checkpoint
    (h : types.Header) (proposer : types.Address) (st : ibft.HookState) :
  0 < epochSize ->
  0 <= types.Number h < 2 ^ 64 ->
  types.Number h mod epochSize = 0 ->
  let q := types.Number h / epochSize in
  let cleared := ibft.withVotes [] (ibft.snap st) in
  let purge :=
    if (q - 2 >? 0) && (q <? 2 ^ 63 + 2)
    then [ibft.DeleteLower ((q - 2) * epochSize)]
    else [] in
  processHeadersHook h proposer st =
    ibft.Return None
      (ibft.mkState cleared
         (ibft.calls st ++ ibft.SaveSnap h cleared :: purge)) /\
  (q < 2 ^ 63 + 2 ->
   processHeadersHook h proposer st =
     ibft.Return None (spec.checkpointInWords epochSize h st)).
Proof.
  intros He Hrange Hmod q cleared purge.
  assert (Hq : 0 <= q < 2 ^ 64).
  { unfold q. split; [apply Z.div_pos; lia |].
    apply Z.div_lt_upper_bound; nia. }
  assert (Hnum : types.Number h = q * epochSize).
  { unfold q. rewrite (Z.div_mod (types.Number h) epochSize) at 1 by lia.
    rewrite Hmod. lia. }
  assert (Hrun : processHeadersHook h proposer st =
                 ibft.Return None
                   (ibft.mkState cleared
                      (ibft.calls st ++ ibft.SaveSnap h cleared :: purge))).
  { unfold ibft.processHeadersHook.
    destruct (Z.eqb_spec epochSize 0) as [E | _]; [lia |].
    rewrite Hmod. cbn [Z.eqb]. f_equal.
    unfold ibft.checkpoint. fold q. rewrite (epoch_value q Hq).
    unfold purge.
    destruct (Z.ltb_spec q (2 ^ 63 + 2)) as [Hlt | Hge].
    - rewrite andb_true_r.
      destruct (Z.gtb_spec (q - 2) 0) as [Hpos | Hneg].
      + rewrite purge_value by lia.
        unfold ibft.call, ibft.withSnap. cbn [ibft.snap ibft.calls].
        fold cleared. rewrite <- app_assoc. reflexivity.
      + unfold ibft.call, ibft.withSnap. cbn [ibft.snap ibft.calls].
        reflexivity.
    - rewrite andb_false_r.
      destruct (Z.gtb_spec (q - 2 - 2 ^ 64) 0) as [Hpos | Hneg]; [lia |].
      unfold ibft.call, ibft.withSnap. cbn [ibft.snap ibft.calls].
      reflexivity. }
  split; [exact Hrun |].
  intro Hlt. rewrite Hrun. f_equal.
  unfold spec.checkpointInWords, purge. fold q cleared.
  destruct (Z.ltb_spec q (2 ^ 63 + 2)) as [_ | Hge]; [| lia].
  rewrite andb_true_r.
  destruct (q - 2 >? 0); unfold ibft.call, ibft.withSnap;
    cbn [ibft.snap ibft.calls]; [rewrite <- app_assoc |]; reflexivity.
Qed.

End Governance.

(** ** The claims on the scenarios of the specification *)


(** C3 as the specification states it fails: a proposer that is no
    validator casts a vote, and the vote stays in the snapshot the hook
    leaves on success. *)
Lemma voter_membership_counterexample :
  spec.voterMembership
    (ibft.snap (scenario.state [scenario.A; scenario.B; scenario.C] [])) /\
  scenario.hook scenario.S1 scenario.stranger
    (scenario.state [scenario.A; scenario.B; scenario.C] []) =
  ibft.Return None
    (scenario.state [scenario.A; scenario.B; scenario.C]
       [scenario.vote scenario.stranger scenario.D true]) /\
  ~ spec.voterMembership
      (ibft.snap
         (scenario.state [scenario.A; scenario.B; scenario.C]
            [scenario.vote scenario.stranger scenario.D true])).
Proof.
  split; [intros v [] |]. split; [vm_compute; reflexivity |].
  intro Hmem.
  specialize (Hmem (scenario.vote scenario.stranger scenario.D true)
                (or_introl eq_refl)).
  vm_compute in Hmem. discriminate Hmem.
Qed.

(** Scenario S2: the second vote to authorize [D] is a majority of three
    validators; [D] joins the set and the votes naming it are purged. *)
Lemma processHeadersHook_tally_S2 :
  exists st' : ibft.HookState,
    scenario.hook scenario.S2 scenario.B
      (scenario.state [scenario.A; scenario.B; scenario.C]
         [scenario.vote scenario.A scenario.D true]) =
    ibft.Return None st' /\
    ibft.Set_ (ibft.snap st') =
      [scenario.A; scenario.B; scenario.C; scenario.D] /\
    ibft.Votes (ibft.snap st') = [].
Proof.
  destruct (processHeadersHook_tally scenario.epochSize
              scenario.nonceAuthVote scenario.nonceDropVote
              scenario.ZeroAddress scenario.S2 scenario.B
              (scenario.state [scenario.A; scenario.B; scenario.C]
                 [scenario.vote scenario.A scenario.D true]) true)
    as (st' & Hrun & _ & _ & _ & Hmaj & _).
  - vm_compute. discriminate.
  - vm_compute. discriminate.
  - vm_compute. discriminate.
  - reflexivity.
  - reflexivity.
  - vm_compute. discriminate.
  - exists st'. split; [exact Hrun |].
    destruct Hmaj as (Hset & _ & Hvotes); [vm_compute; reflexivity |].
    split; [rewrite Hset | rewrite Hvotes]; reflexivity.
Defined.

(** Scenario S6 at block 30: votes cleared, [saveSnap] called, and the
    snapshots below block 10 purged. *)
Lemma processHeadersHook_checkpoint_S6 :
  scenario.hook scenario.S6 scenario.A
    (scenario.state [scenario.A; scenario.B; scenario.C]
       [scenario.vote scenario.A scenario.D true]) =
  ibft.Return None
    (ibft.mkState (ibft.mkSnapshot 0 [] [scenario.A; scenario.B; scenario.C])
       [ibft.SaveSnap scenario.S6
          (ibft.mkSnapshot 0 [] [scenario.A; scenario.B; scenario.C]);
        ibft.DeleteLower 10]).
Proof.
  refine (proj1 (processHeadersHook_checkpoint scenario.epochSize
                   scenario.nonceAuthVote scenario.nonceDropVote
                   scenario.ZeroAddress scenario.S6 scenario.A
                   (scenario.state [scenario.A; scenario.B; scenario.C]
                      [scenario.vote scenario.A scenario.D true]) _ _ _)).
  - reflexivity.
  - split; vm_compute; [discriminate | reflexivity].
  - reflexivity.
Defined.

(** Scenario S1, the proposer [A] being a validator: the vote cast keeps
    voter membership. *)
Lemma processHeadersHook_voter_membership_S1 :
  spec.voterMembership
    (ibft.snap
       (scenario.state [scenario.A; scenario.B; scenario.C]
          [scenario.vote scenario.A scenario.D true])).
Proof.
  apply (processHeadersHook_voter_membership scenario.epochSize
           scenario.nonceAuthVote scenario.nonceDropVote
           scenario.ZeroAddress scenario.S1 scenario.A
           (scenario.state [scenario.A; scenario.B; scenario.C] [])).
  - intros v [].
  - reflexivity.
  - reflexivity.
Defined.

(** The rejection scenario: nonce [0xDEADBEEFDEADBEEF] on block 3. *)
Lemma processHeadersHook_nonce_rejection :
  exists st' : ibft.HookState,
    scenario.hook scenario.badNonce scenario.A
      (scenario.state [scenario.A; scenario.B; scenario.C] []) =
    ibft.Return (Some ibft.ErrIncorrectVoteNonce) st'.
Proof.
  apply (processHeadersHook_nonce scenario.epochSize
           scenario.nonceAuthVote scenario.nonceDropVote
           scenario.ZeroAddress scenario.badNonce scenario.A
           (scenario.state [scenario.A; scenario.B; scenario.C] [])).
  - vm_compute. discriminate.
  - vm_compute. discriminate.
  - repeat split; vm_compute; discriminate.
Defined.

(** Scenario S1: no vote of [A] for [D] is pending, one is appended. *)
Lemma processHeadersHook_cast_vote_S1 :
  scenario.hook scenario.S1 scenario.A
    (scenario.state [scenario.A; scenario.B; scenario.C] []) =
  ibft.Return None
    (scenario.state [scenario.A; scenario.B; scenario.C]
       [scenario.vote scenario.A scenario.D true]).
Proof.
  destruct (processHeadersHook_cast_vote scenario.epochSize
              scenario.nonceAuthVote scenario.nonceDropVote
              scenario.ZeroAddress scenario.S1 scenario.A
              (scenario.state [scenario.A; scenario.B; scenario.C] []) true)
    as (_ & Hnone & _).
  - vm_compute. discriminate.
  - vm_compute. discriminate.
  - vm_compute. discriminate.
  - reflexivity.
  - reflexivity.
  - destruct Hnone as (_ & _ & Hrun); [reflexivity |].
    exact Hrun.
Defined.

(** The idempotence scenario: a vote to authorize [A], a validator. *)
Lemma processHeadersHook_already_satisfied_A :
  scenario.hook scenario.reAuthorize scenario.B
    (scenario.state [scenario.A; scenario.B; scenario.C] []) =
  ibft.Return None (scenario.state [scenario.A; scenario.B; scenario.C] []).
Proof.
  apply (processHeadersHook_already_satisfied scenario.epochSize
           scenario.nonceAuthVote scenario.nonceDropVote
           scenario.ZeroAddress scenario.reAuthorize scenario.B
           (scenario.state [scenario.A; scenario.B; scenario.C] [])).
  - vm_compute. discriminate.
  - vm_compute. discriminate.
  - vm_compute. discriminate.
  - vm_compute. discriminate.
  - left. split; reflexivity.
Defined.

(** Scenario S1 leaves one vote; it is the only one of its pair. *)
Lemma processHeadersHook_vote_uniqueness_S1 :
  spec.voteUniqueness
    (ibft.snap
       (scenario.state [scenario.A; scenario.B; scenario.C]
          [scenario.vote scenario.A scenario.D true])).
Proof.
  apply (processHeadersHook_vote_uniqueness scenario.epochSize
           scenario.nonceAuthVote scenario.nonceDropVote
           scenario.ZeroAddress scenario.S1 scenario.A
           (scenario.state [scenario.A; scenario.B; scenario.C] [])).
  - intros voter candidate. vm_compute. discriminate.
  - reflexivity.
Defined.

(** The rejection scenario leaves the state as it was. *)
Lemma processHeadersHook_error_no_change_rejection :
  scenario.hook scenario.badNonce scenario.A
    (scenario.state [scenario.A; scenario.B; scenario.C] []) =
  ibft.Return (Some ibft.ErrIncorrectVoteNonce)
    (scenario.state [scenario.A; scenario.B; scenario.C] []) /\
  ibft.calls (scenario.state [scenario.A; scenario.B; scenario.C] []) =
  ibft.calls (scenario.state [scenario.A; scenario.B; scenario.C] []).
Proof.
  split; [reflexivity |].
  apply (processHeadersHook_error_no_change scenario.epochSize
           scenario.nonceAuthVote scenario.nonceDropVote
           scenario.ZeroAddress scenario.badNonce scenario.A
           (scenario.state [scenario.A; scenario.B; scenario.C] [])
           (scenario.state [scenario.A; scenario.B; scenario.C] [])
           ibft.ErrIncorrectVoteNonce).
  reflexivity.
Defined.

(** * Further properties of the hooks *)

Section Hooks.

Variable epochSize : Z.
Variables nonceAuthVote nonceDropVote : types.Nonce.
Variable ZeroAddress : types.Address.

Local Abbreviation processHeadersHook :=
  (ibft.processHeadersHook epochSize nonceAuthVote nonceDropVote ZeroAddress).
Local Abbreviation selectAction :=
  (ibft.selectAction nonceAuthVote nonceDropVote).
Local Abbreviation verifyHeadersHook :=
  (ibft.verifyHeadersHook nonceAuthVote nonceDropVote).

(** ** The paths through the hook *)

Lemma selectAction_Some (h : types.Header) (authorize : bool) :
  selectAction h = Some authorize ->
  authorize = (types.HNonce h =? nonceAuthVote) /\
  (types.HNonce h = nonceAuthVote \/ types.HNonce h = nonceDropVote).
Proof.
  unfold ibft.selectAction.
  destruct (Z.eqb_spec (types.HNonce h) nonceAuthVote) as [Ea | Ea].
  - intro H. injection H as <-. split; [reflexivity | left; exact Ea].
  - destruct (Z.eqb_spec (types.HNonce h) nonceDropVote) as [Ed | Ed];
      [| discriminate].
    intro H. injection H as <-. split; [reflexivity | right; exact Ed].
Qed.

(** Every way the hook returns: an error with the state as found, or one
    of the four successes. *)
Lemma processHeadersHook_paths (h : types.Header)
    (proposer : types.Address) (st st' : ibft.HookState)
    (r : option ibft.HookError) :
  processHeadersHook h proposer st = ibft.Return r st' ->
  epochSize <> 0 /\
  ((r <> None /\ types.Number h mod epochSize <> 0 /\ st' = st) \/
   (r = None /\ types.Number h mod epochSize = 0 /\
    st' = ibft.checkpoint epochSize h st) \/
   (r = None /\ types.Number h mod epochSize <> 0 /\
    types.Miner h = ZeroAddress /\ st' = st) \/
   (r = None /\ types.Number h mod epochSize <> 0 /\
    types.Miner h <> ZeroAddress /\
    exists authorize,
      selectAction h = Some authorize /\
      ((ibft.alreadySatisfied authorize h (ibft.snap st) = true /\ st' = st) \/
       (ibft.alreadySatisfied authorize h (ibft.snap st) = false /\
        exists cast,
          ibft.castVote authorize h proposer (ibft.snap st) = inr cast /\
          st' = ibft.withSnap (ibft.applyTally authorize h cast) st)))).
Proof.
  intro H. unfold ibft.processHeadersHook in H.
  destruct (Z.eqb_spec epochSize 0) as [| He]; [discriminate H |].
  split; [exact He |].
  destruct (Z.eqb_spec (types.Number h mod epochSize) 0) as [Hc | Hc].
  { injection H as <- <-. right. left. repeat split. exact Hc. }
  destruct (Z.eqb_spec (types.Miner h) ZeroAddress) as [Hz | Hz].
  { injection H as <- <-. right. right. left. repeat split; assumption. }
  destruct (selectAction h) as [authorize |] eqn:Hsel.
  - destruct (ibft.alreadySatisfied authorize h (ibft.snap st)) eqn:Hguard.
    + injection H as <- <-. do 3 right. repeat split; try assumption.
      exists authorize. split; [reflexivity |]. left.
      split; [exact Hguard | reflexivity].
    + destruct (ibft.castVote authorize h proposer (ibft.snap st))
        as [e | cast] eqn:Hcast; injection H as <- <-.
      * left. repeat split; [discriminate | assumption].
      * do 3 right. repeat split; try assumption.
        exists authorize. split; [reflexivity |]. right.
        split; [exact Hguard |]. exists cast.
        split; [exact Hcast | reflexivity].
  - injection H as <- <-. left. repeat split; [discriminate | assumption].
Qed.

(** ** Verification and processing of the nonce *)

(** A nonce that [verifyHeadersHook] accepts never makes
    [processHeadersHook] fail with the incorrect-vote-nonce error; a nonce
    it rejects makes [processHeadersHook] fail with that error on every
    header that is no checkpoint and names a miner. *)
Theorem verifyHeadersHook_processHeadersHook
    (h : types.Header) (proposer : types.Address) (st : ibft.HookState) :
  (verifyHeadersHook (types.HNonce h) = None ->
   forall st', processHeadersHook h proposer st <>
               ibft.Return (Some ibft.ErrIncorrectVoteNonce) st') /\
  (verifyHeadersHook (types.HNonce h) = Some ibft.ErrInvalidNonce ->
   epochSize <> 0 ->
   types.Number h mod epochSize <> 0 ->
   types.Miner h <> ZeroAddress ->
   processHeadersHook h proposer st =
     ibft.Return (Some ibft.ErrIncorrectVoteNonce) st).
Proof.
  unfold ibft.verifyHeadersHook. split.
  - intros Hok st' H. unfold ibft.processHeadersHook in H.
    destruct (epochSize =? 0); [discriminate H |].
    destruct (types.Number h mod epochSize =? 0); [discriminate H |].
    destruct (types.Miner h =? ZeroAddress); [discriminate H |].
    unfold ibft.selectAction in H.
    destruct (types.HNonce h =? nonceAuthVote).
    + destruct (ibft.alreadySatisfied true h (ibft.snap st));
        [discriminate H |].
      destruct (ibft.castVote true h proposer (ibft.snap st)) as [e | s] eqn:Hc;
        [| discriminate H].
      apply castVote_error in Hc. subst e. discriminate H.
    + destruct (types.HNonce h =? nonceDropVote); [| discriminate Hok].
      destruct (ibft.alreadySatisfied false h (ibft.snap st));
        [discriminate H |].
      destruct (ibft.castVote false h proposer (ibft.snap st)) as [e | s] eqn:Hc;
        [| discriminate H].
      apply castVote_error in Hc. subst e. discriminate H.
  - intros Hbad He Hn Hm.
    rewrite (hook_vote_branch epochSize nonceAuthVote nonceDropVote
               ZeroAddress h proposer st He Hn Hm).
    unfold ibft.selectAction.
    destruct (types.HNonce h =? nonceDropVote);
      [rewrite andb_false_l in Hbad; discriminate Hbad |].
    destruct (types.HNonce h =? nonceAuthVote);
      [rewrite andb_false_r in Hbad; discriminate Hbad | reflexivity].
Qed.

(** ** What a header may do *)

(** A header that is no checkpoint makes no call: whatever the hook
    returns, neither [saveSnap] nor [deleteLower] has been called. *)
Theorem processHeadersHook_calls_only_at_checkpoint
    (h : types.Header) (proposer : types.Address)
    (st st' : ibft.HookState) (r : option ibft.HookError) :
  types.Number h mod epochSize <> 0 ->
  processHeadersHook h proposer st = ibft.Return r st' ->
  ibft.calls st' = ibft.calls st.
Proof.
  intros Hn H. apply processHeadersHook_paths in H.
  destruct H as [_ [(_ & _ & ->) | [(_ & Hc & _) | [(_ & _ & _ & ->) |
    (_ & _ & _ & authorize & _ & [[_ ->] | (_ & cast & _ & ->)])]]]];
    try reflexivity.
  contradiction.
Qed.

(** At a checkpoint the hook calls [saveSnap] once, before anything else,
    and [deleteLower] at most once; the block it asks to purge below is
    [number - 2 * epochSize], and it asks so from the third epoch on only.
    The snapshots of the two latest epochs are never purged. *)
Theorem processHeadersHook_purge_horizon
    (h : types.Header) (proposer : types.Address) (st : ibft.HookState) :
  0 < epochSize ->
  0 <= types.Number h < 2 ^ 64 ->
  types.Number h mod epochSize = 0 ->
  exists (st' : ibft.HookState) (rest : list ibft.Call),
    processHeadersHook h proposer st = ibft.Return None st' /\
    ibft.calls st' =
      ibft.calls st ++
      ibft.SaveSnap h (ibft.withVotes [] (ibft.snap st)) :: rest /\
    (rest = [] \/
     rest = [ibft.DeleteLower (types.Number h - 2 * epochSize)] /\
     3 * epochSize <= types.Number h).
Proof.
  intros He Hrange Hmod.
  set (q := types.Number h / epochSize).
  assert (Hnum : types.Number h = q * epochSize).
  { unfold q. rewrite (Z.div_mod (types.Number h) epochSize) at 1 by lia.
    rewrite Hmod. lia. }
  assert (Hq : 0 <= q < 2 ^ 64).
  { unfold q. split; [apply Z.div_pos; lia |].
    apply Z.div_lt_upper_bound; nia. }
  unfold ibft.processHeadersHook.
  destruct (Z.eqb_spec epochSize 0) as [E | _]; [lia |].
  rewrite Hmod. cbn [Z.eqb].
  unfold ibft.checkpoint. fold q. rewrite (epoch_value q Hq).
  destruct (Z.ltb_spec q (2 ^ 63 + 2)) as [Hlt | Hge].
  - destruct (Z.gtb_spec (q - 2) 0) as [Hpos | Hneg].
    + rewrite purge_value by lia.
      eexists. exists [ibft.DeleteLower ((q - 2) * epochSize)].
      split; [reflexivity |]. split.
      * cbn [ibft.calls ibft.call ibft.withSnap ibft.snap].
        rewrite <- app_assoc. reflexivity.
      * right. split; [do 2 f_equal; lia | nia].
    + eexists. exists []. split; [reflexivity |].
      split; [reflexivity | left; reflexivity].
  - destruct (Z.gtb_spec (q - 2 - 2 ^ 64) 0) as [Hpos | Hneg]; [lia |].
    eexists. exists []. split; [reflexivity |].
    split; [reflexivity | left; reflexivity].
Qed.

(** ** What a vote may change *)

Lemma castVote_result (authorize : bool) (h : types.Header)
    (proposer : types.Address) (s cast : ibft.Snapshot) :
  ibft.castVote authorize h proposer s = inr cast ->
  ibft.Set_ cast = ibft.Set_ s /\
  ibft.Count (ibft.sameProposal proposer h) cast = 1 /\
  (ibft.Votes cast = ibft.Votes s \/
   ibft.Votes cast =
     ibft.Votes s ++ [ibft.mkVote proposer (types.Miner h) authorize]).
Proof.
  intro Hcast.
  destruct (castVote_cases authorize h proposer s)
    as [[Hc E] | [[Hc E] | [Hc E]]]; rewrite E in Hcast;
    [discriminate Hcast | |]; injection Hcast as <-.
  - split; [reflexivity |]. split; [| right; reflexivity].
    unfold ibft.Count, ibft.withVotes in Hc |- *. cbn [ibft.Votes].
    rewrite filter_app, length_app, Nat2Z.inj_add, Hc.
    cbn [filter]. unfold ibft.sameProposal at 1.
    cbn [ibft.Validator ibft.Address].
    rewrite !Z.eqb_refl. reflexivity.
  - split; [reflexivity |]. split; [exact Hc | left; reflexivity].
Qed.

Lemma applyTally_result (authorize : bool) (h : types.Header)
    (s : ibft.Snapshot) :
  (ibft.Count (ibft.names h) s > ibft.Len (ibft.Set_ s) / 2 /\
   ibft.Set_ (ibft.applyTally authorize h s) =
     (if authorize then ibft.Add (types.Miner h) (ibft.Set_ s)
      else ibft.Del (types.Miner h) (ibft.Set_ s)) /\
   ibft.Votes (ibft.applyTally authorize h s) =
     filter
       (fun v => negb ((ibft.Address v =? types.Miner h) ||
                       (negb authorize &&
                        (ibft.Validator v =? types.Miner h))))
       (ibft.Votes s)) \/
  (ibft.Count (ibft.names h) s <= ibft.Len (ibft.Set_ s) / 2 /\
   ibft.applyTally authorize h s = s).
Proof.
  destruct (Z_gt_le_dec (ibft.Count (ibft.names h) s)
              (ibft.Len (ibft.Set_ s) / 2)) as [Hmaj | Hmin].
  - left. rewrite (applyTally_majority authorize h s Hmaj).
    repeat split. exact Hmaj.
  - right. split; [exact Hmin | exact (applyTally_minority authorize h s Hmin)].
Qed.

Lemma alreadySatisfied_false (authorize : bool) (h : types.Header)
    (s : ibft.Snapshot) :
  ibft.alreadySatisfied authorize h s = false ->
  ibft.Includes (types.Miner h) (ibft.Set_ s) = negb authorize.
Proof.
  unfold ibft.alreadySatisfied. destruct authorize; cbn [negb];
    [trivial | apply negb_false_iff].
Qed.

(** A header changes the membership of its miner at most, and in the
    direction of its nonce: an address whose membership differs after a
    successful run is the miner of a vote header, a member afterwards
    exactly when the nonce is the vote to authorize. *)
Theorem processHeadersHook_membership_change
    (h : types.Header) (proposer : types.Address)
    (st st' : ibft.HookState) (a : types.Address) :
  processHeadersHook h proposer st = ibft.Return None st' ->
  ibft.Includes a (ibft.Set_ (ibft.snap st')) <>
  ibft.Includes a (ibft.Set_ (ibft.snap st)) ->
  a = types.Miner h /\
  types.Miner h <> ZeroAddress /\
  types.Number h mod epochSize <> 0 /\
  ibft.Includes a (ibft.Set_ (ibft.snap st')) =
    (types.HNonce h =? nonceAuthVote).
Proof.
  intros H Hdiff. apply processHeadersHook_paths in H.
  destruct H as [_ [(Hr & _) | [(_ & _ & ->) | [(_ & _ & _ & ->) |
    (_ & Hn & Hz & authorize & Hsel & [[_ ->] | (Hg & cast & Hcast & ->)])]]]].
  - now contradiction Hr.
  - rewrite checkpoint_snap in Hdiff. now contradiction Hdiff.
  - now contradiction Hdiff.
  - now contradiction Hdiff.
  - apply castVote_result in Hcast. destruct Hcast as (Hset & _ & _).
    apply alreadySatisfied_false in Hg.
    apply selectAction_Some in Hsel. destruct Hsel as [Hsel _].
    cbn [ibft.snap ibft.withSnap] in Hdiff |- *.
    destruct (applyTally_result authorize h cast)
      as [(_ & Hs & _) | (_ & Hs)]; rewrite Hs, ?Hset in Hdiff |- *;
      [| now contradiction Hdiff].
    assert (Ha : a = types.Miner h).
    { destruct (Z.eqb_spec a (types.Miner h)) as [E | E]; [exact E |].
      exfalso. apply Hdiff. destruct authorize.
      - rewrite Includes_Add. apply Z.eqb_neq in E. now rewrite E.
      - rewrite Includes_Del. apply Z.eqb_neq in E. now rewrite E. }
    subst a. repeat split; try assumption.
    rewrite <- Hsel. destruct authorize.
    + rewrite Includes_Add, Z.eqb_refl. reflexivity.
    + rewrite Includes_Del, Z.eqb_refl. reflexivity.
Qed.

(** The hook invents no vote: a vote pending after a successful run was
    pending before, or it is the vote of the proposer for the miner in the
    direction of the nonce. *)
Theorem processHeadersHook_votes_provenance
    (h : types.Header) (proposer : types.Address)
    (st st' : ibft.HookState) (v : ibft.Vote) :
  processHeadersHook h proposer st = ibft.Return None st' ->
  In v (ibft.Votes (ibft.snap st')) ->
  In v (ibft.Votes (ibft.snap st)) \/
  (v = ibft.mkVote proposer (types.Miner h)
         (types.HNonce h =? nonceAuthVote) /\
   types.Miner h <> ZeroAddress /\
   types.Number h mod epochSize <> 0).
Proof.
  intros H Hin. apply processHeadersHook_paths in H.
  destruct H as [_ [(Hr & _) | [(_ & _ & ->) | [(_ & _ & _ & ->) |
    (_ & Hn & Hz & authorize & Hsel & [[_ ->] | (Hg & cast & Hcast & ->)])]]]].
  - now contradiction Hr.
  - rewrite checkpoint_snap in Hin. destruct Hin.
  - left. exact Hin.
  - left. exact Hin.
  - apply castVote_result in Hcast. destruct Hcast as (_ & _ & Hvotes).
    apply selectAction_Some in Hsel. destruct Hsel as [Hsel _].
    cbn [ibft.snap ibft.withSnap] in Hin.
    assert (Hcastin : In v (ibft.Votes cast)).
    { destruct (applyTally_result authorize h cast)
        as [(_ & _ & Hv) | (_ & Hs)]; rewrite ?Hv, ?Hs in Hin;
        [apply filter_In in Hin; tauto | exact Hin]. }
    destruct Hvotes as [E | E]; rewrite E in Hcastin; [left; exact Hcastin |].
    apply in_app_or in Hcastin. destruct Hcastin as [Hold | [<- | []]];
      [left; exact Hold |].
    right. rewrite <- Hsel. repeat split; assumption.
Qed.

(** The zero address stays out: a successful run leaves its membership
    as it was, and when no pending vote names the zero address as
    candidate, none does afterwards. *)
Theorem processHeadersHook_zero_address
    (h : types.Header) (proposer : types.Address)
    (st st' : ibft.HookState) :
  processHeadersHook h proposer st = ibft.Return None st' ->
  ibft.Includes ZeroAddress (ibft.Set_ (ibft.snap st')) =
    ibft.Includes ZeroAddress (ibft.Set_ (ibft.snap st)) /\
  ((forall v, In v (ibft.Votes (ibft.snap st)) ->
              ibft.Address v <> ZeroAddress) ->
   forall v, In v (ibft.Votes (ibft.snap st')) ->
             ibft.Address v <> ZeroAddress).
Proof.
  intro H. apply processHeadersHook_paths in H.
  destruct H as [_ [(Hr & _) | [(_ & _ & ->) | [(_ & _ & _ & ->) |
    (_ & Hn & Hz & authorize & Hsel & [[_ ->] | (Hg & cast & Hcast & ->)])]]]].
  - now contradiction Hr.
  - rewrite checkpoint_snap. split; [reflexivity | intros _ v []].
  - split; [reflexivity | trivial].
  - split; [reflexivity | trivial].
  - apply castVote_result in Hcast. destruct Hcast as (Hset & _ & Hvotes).
    cbn [ibft.snap ibft.withSnap].
    assert (Hne : (ZeroAddress =? types.Miner h) = false)
      by (apply Z.eqb_neq; congruence).
    split.
    + destruct (applyTally_result authorize h cast)
        as [(_ & Hs & _) | (_ & Hs)]; rewrite Hs, ?Hset; [| reflexivity].
      destruct authorize.
      * rewrite Includes_Add, Hne. reflexivity.
      * rewrite Includes_Del, Hne. reflexivity.
    + intros Hold v Hin.
      assert (Hcastin : In v (ibft.Votes cast)).
      { destruct (applyTally_result authorize h cast)
          as [(_ & _ & Hv) | (_ & Hs)]; rewrite ?Hv, ?Hs in Hin;
          [apply filter_In in Hin; tauto | exact Hin]. }
      destruct Hvotes as [E | E]; rewrite E in Hcastin;
        [exact (Hold v Hcastin) |].
      apply in_app_or in Hcastin. destruct Hcastin as [Hin' | [<- | []]];
        [exact (Hold v Hin') | exact Hz].
Qed.

(** ** Voting twice *)

Lemma processHeadersHook_same_vote (h1 h2 : types.Header)
    (proposer : types.Address) (st : ibft.HookState) :
  types.Number h1 mod epochSize <> 0 ->
  types.Number h2 mod epochSize <> 0 ->
  types.Miner h2 = types.Miner h1 ->
  types.HNonce h2 = types.HNonce h1 ->
  processHeadersHook h2 proposer st = processHeadersHook h1 proposer st.
Proof.
  destruct h1 as [n1 m1 c1], h2 as [n2 m2 c2].
  cbn [types.Number types.Miner types.HNonce].
  intros Hn1 Hn2 -> ->. unfold ibft.processHeadersHook.
  cbn [types.Number types.Miner].
  destruct (epochSize =? 0); [reflexivity |].
  destruct (Z.eqb_spec (n1 mod epochSize) 0) as [E | _]; [contradiction |].
  destruct (Z.eqb_spec (n2 mod epochSize) 0) as [E | _]; [contradiction |].
  reflexivity.
Qed.

Lemma alreadySatisfied_set (authorize : bool) (h : types.Header)
    (s1 s2 : ibft.Snapshot) :
  ibft.Set_ s1 = ibft.Set_ s2 ->
  ibft.alreadySatisfied authorize h s1 = ibft.alreadySatisfied authorize h s2.
Proof. unfold ibft.alreadySatisfied. intros ->. reflexivity. Qed.

(** A vote cast twice counts once: when a vote header by a proposer has
    been processed with success, a next vote header of the same proposer
    with the same miner and nonce returns success and leaves the snapshot
    as the first left it. *)
Theorem processHeadersHook_repeated_vote
    (h1 h2 : types.Header) (proposer : types.Address)
    (st st1 : ibft.HookState) :
  types.Number h1 mod epochSize <> 0 ->
  types.Number h2 mod epochSize <> 0 ->
  types.Miner h2 = types.Miner h1 ->
  types.HNonce h2 = types.HNonce h1 ->
  processHeadersHook h1 proposer st = ibft.Return None st1 ->
  processHeadersHook h2 proposer st1 = ibft.Return None st1.
Proof.
  intros Hn1 Hn2 Hm Hc H.
  rewrite (processHeadersHook_same_vote h1 h2 proposer st1 Hn1 Hn2 Hm Hc).
  pose proof H as Hpaths. apply processHeadersHook_paths in Hpaths.
  destruct Hpaths as [He [(Hr & _) | [(_ & Hcp & _) | [(_ & _ & _ & ->) |
    (_ & _ & Hz & authorize & Hsel &
     [[_ ->] | (Hg & cast & Hcast & ->)])]]]].
  - now contradiction Hr.
  - contradiction.
  - exact H.
  - exact H.
  - rewrite (hook_vote_branch epochSize nonceAuthVote nonceDropVote
               ZeroAddress h1 proposer _ He Hn1 Hz), Hsel.
    cbn [ibft.snap ibft.withSnap].
    pose proof (castVote_result _ _ _ _ _ Hcast) as (Hset & Hone & _).
    pose proof (alreadySatisfied_false _ _ _ Hg) as Hin.
    destruct (applyTally_result authorize h1 cast)
      as [(_ & Hs & _) | (Hmin & Hs)].
    + assert (Hnow : ibft.alreadySatisfied authorize h1
                       (ibft.applyTally authorize h1 cast) = true).
      { unfold ibft.alreadySatisfied. rewrite Hs. destruct authorize.
        - rewrite Includes_Add, Z.eqb_refl. reflexivity.
        - rewrite Includes_Del, Z.eqb_refl. reflexivity. }
      rewrite Hnow. reflexivity.
    + rewrite Hs.
      rewrite (alreadySatisfied_set authorize h1 cast (ibft.snap st) Hset), Hg.
      assert (Hagain : ibft.castVote authorize h1 proposer cast = inr cast).
      { unfold ibft.castVote. rewrite Hone. reflexivity. }
      rewrite Hagain, Hs. reflexivity.
Qed.

(** ** Small validator sets *)

Lemma length_filter_implies (A : Type) (p q : A -> bool) (l : list A) :
  (forall x, p x = true -> q x = true) ->
  (List.length (filter p l) <= List.length (filter q l))%nat.
Proof.
  intro Himp. induction l as [| x l IH]; [apply le_n |].
  cbn [filter]. destruct (p x) eqn:Hp.
  - rewrite (Himp x Hp). cbn [List.length]. lia.
  - destruct (q x); cbn [List.length]; lia.
Qed.

Lemma Count_sameProposal_names (proposer : types.Address)
    (h : types.Header) (s : ibft.Snapshot) :
  ibft.Count (ibft.sameProposal proposer h) s <= ibft.Count (ibft.names h) s.
Proof.
  unfold ibft.Count. apply inj_le, length_filter_implies.
  intros v Hv. unfold ibft.sameProposal in Hv.
  apply andb_true_iff in Hv. exact (proj2 Hv).
Qed.

(** With at most one validator a single vote decides.  On a vote header
    past the two guards, a vote to authorize adds the miner at once, and a
    vote to drop the only validator removes it at once, which leaves the
    validator set empty; no vote naming the miner stays pending. *)
Theorem processHeadersHook_single_validator
    (h : types.Header) (proposer : types.Address) (st : ibft.HookState)
    (authorize : bool) :
  epochSize <> 0 ->
  types.Number h mod epochSize <> 0 ->
  types.Miner h <> ZeroAddress ->
  selectAction h = Some authorize ->
  ibft.alreadySatisfied authorize h (ibft.snap st) = false ->
  ibft.Count (ibft.sameProposal proposer h) (ibft.snap st) <= 1 ->
  ibft.Len (ibft.Set_ (ibft.snap st)) <= 1 ->
  exists st' : ibft.HookState,
    processHeadersHook h proposer st = ibft.Return None st' /\
    ibft.Set_ (ibft.snap st') =
      (if authorize then ibft.Set_ (ibft.snap st) ++ [types.Miner h]
       else []) /\
    (forall v, In v (ibft.Votes (ibft.snap st')) ->
               ibft.Address v <> types.Miner h).
Proof.
  intros He Hn Hz Hsel Hg Hdup Hlen.
  rewrite (hook_vote_branch epochSize nonceAuthVote nonceDropVote
             ZeroAddress h proposer st He Hn Hz), Hsel, Hg.
  destruct (ibft.castVote authorize h proposer (ibft.snap st))
    as [e | cast] eqn:Hcast.
  { exfalso.
    destruct (castVote_cases authorize h proposer (ibft.snap st))
      as [[Hc _] | [[_ E] | [_ E]]]; [lia | |];
      rewrite E in Hcast; discriminate Hcast. }
  apply castVote_result in Hcast. destruct Hcast as (Hset & Hone & _).
  pose proof (Count_sameProposal_names proposer h cast) as Htally.
  apply alreadySatisfied_false in Hg.
  assert (Hhalf : ibft.Len (ibft.Set_ cast) / 2 = 0).
  { rewrite Hset. unfold ibft.Len in Hlen |- *. apply Z.div_small. lia. }
  eexists. split; [reflexivity |]. cbn [ibft.snap ibft.withSnap].
  destruct (applyTally_result authorize h cast)
    as [(_ & Hs & Hv) | (Hmin & _)]; [| lia].
  rewrite Hs, Hv, Hset. split.
  - destruct authorize; cbn [negb] in Hg.
    + unfold ibft.Add. rewrite Hg. reflexivity.
    + destruct (ibft.Set_ (ibft.snap st)) as [| x [| y l]].
      * discriminate Hg.
      * unfold ibft.Includes in Hg. cbn [existsb] in Hg.
        rewrite orb_false_r in Hg. unfold ibft.Del. cbn [filter].
        rewrite Hg. reflexivity.
      * unfold ibft.Len in Hlen. cbn [List.length] in Hlen. lia.
  - intros v Hin. apply filter_In in Hin. destruct Hin as [_ Hkept].
    apply negb_true_iff, orb_false_iff in Hkept.
    destruct Hkept as [Hkept _]. apply Z.eqb_neq. exact Hkept.
Qed.

(** ** The size of the snapshot *)

Lemma Del_absent (a : types.Address) (v : ibft.ValidatorSet) :
  ~ In a v -> ibft.Del a v = v.
Proof.
  unfold ibft.Del. induction v as [| x v IH]; intro Hout; [reflexivity |].
  cbn [filter]. destruct (Z.eqb_spec x a) as [-> | _].
  - exfalso. apply Hout. left. reflexivity.
  - cbn [negb]. rewrite IH; [reflexivity |].
    intro Hin. apply Hout. right. exact Hin.
Qed.

Lemma Del_length (a : types.Address) (v : ibft.ValidatorSet) :
  NoDup v ->
  (List.length v <= S (List.length (ibft.Del a v)))%nat.
Proof.
  induction 1 as [| x v Hx Hnd IH]; [cbn; lia |].
  unfold ibft.Del in IH |- *. cbn [filter].
  destruct (Z.eqb_spec x a) as [-> | _]; cbn [negb List.length].
  - fold (ibft.Del a v). rewrite (Del_absent a v Hx). lia.
  - lia.
Qed.

Lemma Add_NoDup (a : types.Address) (v : ibft.ValidatorSet) :
  NoDup v -> NoDup (ibft.Add a v).
Proof.
  intro Hnd. unfold ibft.Add. destruct (ibft.Includes a v) eqn:Hin;
    [exact Hnd |].
  apply (Permutation_NoDup (Permutation_cons_append v a)).
  constructor; [| exact Hnd].
  intro Hmem. apply Includes_In in Hmem. congruence.
Qed.

Lemma Add_length (a : types.Address) (v : ibft.ValidatorSet) :
  (List.length v <= List.length (ibft.Add a v) <= S (List.length v))%nat.
Proof.
  unfold ibft.Add. destruct (ibft.Includes a v); [lia |].
  rewrite length_app. cbn [List.length]. lia.
Qed.

(** A header changes little: when the validator set has no duplicate, a
    successful run leaves it without duplicate, its size changed by one at
    most, and the pending votes are at most one more than before. *)
Theorem processHeadersHook_bounded_change
    (h : types.Header) (proposer : types.Address)
    (st st' : ibft.HookState) :
  NoDup (ibft.Set_ (ibft.snap st)) ->
  processHeadersHook h proposer st = ibft.Return None st' ->
  NoDup (ibft.Set_ (ibft.snap st')) /\
  ibft.Len (ibft.Set_ (ibft.snap st)) - 1 <=
    ibft.Len (ibft.Set_ (ibft.snap st')) <=
    ibft.Len (ibft.Set_ (ibft.snap st)) + 1 /\
  (List.length (ibft.Votes (ibft.snap st')) <=
   S (List.length (ibft.Votes (ibft.snap st))))%nat.
Proof.
  intros Hnd H. apply processHeadersHook_paths in H.
  destruct H as [_ [(Hr & _) | [(_ & _ & ->) | [(_ & _ & _ & ->) |
    (_ & Hn & Hz & authorize & Hsel & [[_ ->] | (Hg & cast & Hcast & ->)])]]]].
  - now contradiction Hr.
  - rewrite checkpoint_snap. cbn [ibft.withVotes ibft.Set_ ibft.Votes].
    repeat split; [exact Hnd | lia | lia | cbn; lia].
  - repeat split; [exact Hnd | lia | lia | lia].
  - repeat split; [exact Hnd | lia | lia | lia].
  - apply castVote_result in Hcast. destruct Hcast as (Hset & _ & Hvotes).
    cbn [ibft.snap ibft.withSnap].
    assert (Hcastlen : (List.length (ibft.Votes cast) <=
                        S (List.length (ibft.Votes (ibft.snap st))))%nat).
    { destruct Hvotes as [E | E]; rewrite E; [lia |].
      rewrite length_app. cbn [List.length]. lia. }
    destruct (applyTally_result authorize h cast)
      as [(_ & Hs & Hv) | (_ & Hs)].
    + rewrite Hs, Hv, Hset. unfold ibft.Len.
      pose proof (filter_shorter _
        (fun v => negb ((ibft.Address v =? types.Miner h) ||
                        (negb authorize &&
                         (ibft.Validator v =? types.Miner h))))
        (ibft.Votes cast)) as Hf.
      destruct authorize.
      * pose proof (Add_length (types.Miner h)
                      (ibft.Set_ (ibft.snap st))) as Hl.
        repeat split; [now apply Add_NoDup | lia | lia | lia].
      * pose proof (Del_length (types.Miner h) _ Hnd) as Hl.
        assert (Hl' : (List.length
                         (ibft.Del (types.Miner h)
                            (ibft.Set_ (ibft.snap st))) <=
                       List.length (ibft.Set_ (ibft.snap st)))%nat)
          by apply filter_shorter.
        repeat split; [now apply NoDup_filter | lia | lia | lia].
    + rewrite Hs, Hset. repeat split; [exact Hnd | lia | lia | lia].
Qed.

End Hooks.

(** ** The hook map *)

(** The three hook names being distinct, the hook map of the mechanism
    [PoAFactory] makes binds each name to its own hook and no other name
    to any; the mechanism answers [PoA] for its type. *)
Theorem PoAFactory_hookMap
    (AcceptStateLogHook VerifyHeadersHook ProcessHeadersHook PoA : string) :
  AcceptStateLogHook <> VerifyHeadersHook ->
  AcceptStateLogHook <> ProcessHeadersHook ->
  VerifyHeadersHook <> ProcessHeadersHook ->
  let poa :=
    ibft.PoAFactory AcceptStateLogHook VerifyHeadersHook ProcessHeadersHook
      PoA in
  let m := ibft.GetHookMap poa in
  m AcceptStateLogHook = Some ibft.acceptStateLogHook /\
  m VerifyHeadersHook = Some ibft.verifyHeadersHookMethod /\
  m ProcessHeadersHook = Some ibft.processHeadersHookMethod /\
  (forall name : string,
     m name <> None <->
     name = AcceptStateLogHook \/ name = VerifyHeadersHook \/
     name = ProcessHeadersHook) /\
  ibft.GetType poa = PoA.
Proof.
  intros Hav Hap Hvp poa m.
  unfold m, poa, ibft.GetHookMap, ibft.GetType, ibft.PoAFactory,
    ibft.initializeHookMap, ibft.setHook, ibft.makeHookMap.
  cbn [ibft.hookMap ibft.mechanismType].
  repeat split.
  - destruct (String.eqb_spec AcceptStateLogHook ProcessHeadersHook);
      [contradiction |].
    destruct (String.eqb_spec AcceptStateLogHook VerifyHeadersHook);
      [contradiction |].
    now rewrite String.eqb_refl.
  - destruct (String.eqb_spec VerifyHeadersHook ProcessHeadersHook);
      [contradiction |].
    now rewrite String.eqb_refl.
  - now rewrite String.eqb_refl.
  - intro Hbound.
    destruct (String.eqb_spec name ProcessHeadersHook); [tauto |].
    destruct (String.eqb_spec name VerifyHeadersHook); [tauto |].
    destruct (String.eqb_spec name AcceptStateLogHook); [tauto |].
    now contradiction Hbound.
  - intros [-> | [-> | ->]].
    + destruct (String.eqb AcceptStateLogHook ProcessHeadersHook);
        [discriminate |].
      destruct (String.eqb AcceptStateLogHook VerifyHeadersHook);
        [discriminate |].
      rewrite String.eqb_refl. discriminate.
    + destruct (String.eqb VerifyHeadersHook ProcessHeadersHook);
        [discriminate |].
      rewrite String.eqb_refl. discriminate.
    + rewrite String.eqb_refl. discriminate.
Qed.

(** ** The further properties on the scenarios *)

(** Scenario S1 makes no call. *)
Lemma processHeadersHook_calls_only_at_checkpoint_S1 :
  ibft.calls
    (scenario.state [scenario.A; scenario.B; scenario.C]
       [scenario.vote scenario.A scenario.D true]) =
  ibft.calls (scenario.state [scenario.A; scenario.B; scenario.C] []).
Proof.
  apply (processHeadersHook_calls_only_at_checkpoint scenario.epochSize
           scenario.nonceAuthVote scenario.nonceDropVote
           scenario.ZeroAddress scenario.S1 scenario.A
           (scenario.state [scenario.A; scenario.B; scenario.C] [])
           (scenario.state [scenario.A; scenario.B; scenario.C]
              [scenario.vote scenario.A scenario.D true])
           None).
  - vm_compute. discriminate.
  - reflexivity.
Defined.

(** Scenario S6 at block 30 purges below block 10. *)
Lemma processHeadersHook_purge_horizon_S6 :
  exists (st' : ibft.HookState) (rest : list ibft.Call),
    scenario.hook scenario.S6 scenario.A
      (scenario.state [scenario.A; scenario.B; scenario.C] []) =
    ibft.Return None st' /\
    ibft.calls st' =
      ibft.SaveSnap scenario.S6
        (ibft.mkSnapshot 0 [] [scenario.A; scenario.B; scenario.C]) :: rest /\
    (rest = [] \/ rest = [ibft.DeleteLower 10] /\ 30 <= 30).
Proof.
  refine (processHeadersHook_purge_horizon scenario.epochSize
            scenario.nonceAuthVote scenario.nonceDropVote
            scenario.ZeroAddress scenario.S6 scenario.A
            (scenario.state [scenario.A; scenario.B; scenario.C] []) _ _ _).
  - reflexivity.
  - split; vm_compute; [discriminate | reflexivity].
  - reflexivity.
Defined.

(** Scenario S2 changes the membership of [D], the miner, and of no other
    address. *)
Lemma processHeadersHook_membership_change_S2 :
  scenario.D = types.Miner scenario.S2 /\
  types.Miner scenario.S2 <> scenario.ZeroAddress /\
  types.Number scenario.S2 mod scenario.epochSize <> 0 /\
  ibft.Includes scenario.D
    [scenario.A; scenario.B; scenario.C; scenario.D] =
  (types.HNonce scenario.S2 =? scenario.nonceAuthVote).
Proof.
  apply (processHeadersHook_membership_change scenario.epochSize
           scenario.nonceAuthVote scenario.nonceDropVote
           scenario.ZeroAddress scenario.S2 scenario.B
           (scenario.state [scenario.A; scenario.B; scenario.C]
              [scenario.vote scenario.A scenario.D true])
           (scenario.state
              [scenario.A; scenario.B; scenario.C; scenario.D] [])
           scenario.D).
  - reflexivity.
  - vm_compute. discriminate.
Defined.

(** The vote scenario S1 leaves is the vote of the proposer. *)
Lemma processHeadersHook_votes_provenance_S1 :
  In (scenario.vote scenario.A scenario.D true) [] \/
  (scenario.vote scenario.A scenario.D true =
   ibft.mkVote scenario.A (types.Miner scenario.S1)
     (types.HNonce scenario.S1 =? scenario.nonceAuthVote) /\
   types.Miner scenario.S1 <> scenario.ZeroAddress /\
   types.Number scenario.S1 mod scenario.epochSize <> 0).
Proof.
  apply (processHeadersHook_votes_provenance scenario.epochSize
           scenario.nonceAuthVote scenario.nonceDropVote
           scenario.ZeroAddress scenario.S1 scenario.A
           (scenario.state [scenario.A; scenario.B; scenario.C] [])
           (scenario.state [scenario.A; scenario.B; scenario.C]
              [scenario.vote scenario.A scenario.D true])).
  - reflexivity.
  - left. reflexivity.
Defined.

(** Scenario S2 leaves the zero address out of the validator set. *)
Lemma processHeadersHook_zero_address_S2 :
  ibft.Includes scenario.ZeroAddress
    [scenario.A; scenario.B; scenario.C; scenario.D] =
  ibft.Includes scenario.ZeroAddress [scenario.A; scenario.B; scenario.C].
Proof.
  apply (processHeadersHook_zero_address scenario.epochSize
           scenario.nonceAuthVote scenario.nonceDropVote
           scenario.ZeroAddress scenario.S2 scenario.B
           (scenario.state [scenario.A; scenario.B; scenario.C]
              [scenario.vote scenario.A scenario.D true])
           (scenario.state
              [scenario.A; scenario.B; scenario.C; scenario.D] [])).
  reflexivity.
Defined.

(** After scenario S1, the same vote of [A] on the next block changes
    nothing. *)
Lemma processHeadersHook_repeated_vote_S1 :
  scenario.hook scenario.S2 scenario.A
    (scenario.state [scenario.A; scenario.B; scenario.C]
       [scenario.vote scenario.A scenario.D true]) =
  ibft.Return None
    (scenario.state [scenario.A; scenario.B; scenario.C]
       [scenario.vote scenario.A scenario.D true]).
Proof.
  apply (processHeadersHook_repeated_vote scenario.epochSize
           scenario.nonceAuthVote scenario.nonceDropVote
           scenario.ZeroAddress scenario.S1 scenario.S2 scenario.A
           (scenario.state [scenario.A; scenario.B; scenario.C] [])).
  - vm_compute. discriminate.
  - vm_compute. discriminate.
  - reflexivity.
  - reflexivity.
  - reflexivity.
Defined.

(** The only validator votes itself out. *)
Lemma processHeadersHook_single_validator_dropped :
  exists st' : ibft.HookState,
    scenario.hook (types.mkHeader 3 scenario.A scenario.nonceDropVote)
      scenario.A (scenario.state [scenario.A] []) =
    ibft.Return None st' /\
    ibft.Set_ (ibft.snap st') = [] /\
    (forall v, In v (ibft.Votes (ibft.snap st')) ->
               ibft.Address v <> scenario.A).
Proof.
  refine (processHeadersHook_single_validator scenario.epochSize
            scenario.nonceAuthVote scenario.nonceDropVote
            scenario.ZeroAddress
            (types.mkHeader 3 scenario.A scenario.nonceDropVote)
            scenario.A (scenario.state [scenario.A] []) false
            _ _ _ _ _ _ _).
  - vm_compute. discriminate.
  - vm_compute. discriminate.
  - vm_compute. discriminate.
  - reflexivity.
  - reflexivity.
  - vm_compute. discriminate.
  - vm_compute. discriminate.
Defined.

(** Scenario S2: one validator more, no vote more. *)
Lemma processHeadersHook_bounded_change_S2 :
  NoDup [scenario.A; scenario.B; scenario.C; scenario.D] /\
  ibft.Len [scenario.A; scenario.B; scenario.C] - 1 <=
    ibft.Len [scenario.A; scenario.B; scenario.C; scenario.D] <=
    ibft.Len [scenario.A; scenario.B; scenario.C] + 1 /\
  (List.length (@nil ibft.Vote) <=
   S (List.length [scenario.vote scenario.A scenario.D true]))%nat.
Proof.
  refine (processHeadersHook_bounded_change scenario.epochSize
            scenario.nonceAuthVote scenario.nonceDropVote
            scenario.ZeroAddress scenario.S2 scenario.B
            (scenario.state [scenario.A; scenario.B; scenario.C]
               [scenario.vote scenario.A scenario.D true])
            (scenario.state
               [scenario.A; scenario.B; scenario.C; scenario.D] [])
            _ _).
  - repeat constructor; cbn; intuition discriminate.
  - reflexivity.
Defined.

(** The hook map with the names spelled as the hooks. *)
Lemma PoAFactory_hookMap_names :
  ibft.GetHookMap
    (ibft.PoAFactory "AcceptStateLogHook" "VerifyHeadersHook"
       "ProcessHeadersHook" "PoA")
    "VerifyHeadersHook"%string =
  Some ibft.verifyHeadersHookMethod.
Proof.
  apply (PoAFactory_hookMap "AcceptStateLogHook" "VerifyHeadersHook"
           "ProcessHeadersHook" "PoA"); discriminate.
Defined.
